(** * deep-compute/log: the handler-configuration interpreter

    A shallow embedding of [handlers.go] and [log.go].  The package is a thin
    layer over the log15 library: [MakeFormatter] and [MakeHandler] interpret
    an untyped configuration value ([[]interface{}]) into a tree of log15
    handlers, [RedisHandler] is the one sink the package implements itself,
    and [Printf] / [SetHandler] go through log15's root logger.

    Go values of type [interface{}] are modelled by [value]; a function that
    returns [(T, error)] returns a pair whose components may be [None] (Go's
    [nil]); a run-time panic is an explicit outcome.  Everything the package
    obtains from outside (the operating system, the network, log15's codecs)
    is read from an [Env] of oracles, and every external action is appended
    to the event history of the [World]. *)

From Stdlib Require Import ZArith String Ascii List Bool Lia.
From stdpp Require Import base list.
Import ListNotations.

Local Open Scope string_scope.
Local Open Scope Z_scope.

(** ** Dynamic values *)

(** The dynamic types a configuration element is tested against by the type
    assertions of [handlers.go]: [string], [int], [HandlerConf], and the nil
    interface (the only value that fails [.(interface{})]).  [VBool] and
    [VOther] stand for values of any other dynamic type, among them a plain
    [[]interface{}], which is not a [HandlerConf]. *)
#[warnings="-register-all"]
Inductive value : Type :=
| VNil
| VBool (b : bool)
| VInt (n : Z)
| VString (s : string)
| VOther (type_name : string)
| VConf (conf : list value).

(** [type HandlerConf []interface{}] and [type FormatConf interface{}]. *)
Definition HandlerConf : Type := list value.
Definition FormatConf : Type := value.

(** The induction principle [value_ind] generated by Rocq says nothing about
    the elements of a nested configuration; this one does. *)
Fixpoint value_nested_ind (P : value -> Prop)
    (HNil : P VNil) (HBool : forall b, P (VBool b)) (HInt : forall n, P (VInt n))
    (HString : forall s, P (VString s)) (HOther : forall t, P (VOther t))
    (HConf : forall conf, Forall P conf -> P (VConf conf))
    (v : value) {struct v} : P v :=
  match v with
  | VNil => HNil
  | VBool b => HBool b
  | VInt n => HInt n
  | VString s => HString s
  | VOther t => HOther t
  | VConf conf =>
      HConf conf
        ((fix all (l : list value) : Forall P l :=
            match l with
            | [] => @List.Forall_nil value P
            | x :: l' =>
                @List.Forall_cons value P x l'
                  (value_nested_ind P HNil HBool HInt HString HOther HConf x)
                  (all l')
            end) conf)
  end.

(** ** Errors *)

(** Errors made by the libraries (os, net, syslog, redigo, log15). *)
Inductive lib_error : Type := LibError (msg : string).

(** [var BadConf error = errors.New("Bad configuration")] is the one error
    value the package creates; every other error comes from a library. *)
Inductive error : Type :=
| BadConf
| Foreign (e : lib_error).

(** ** log15 data *)

(** [log15.Lvl]: [LvlCrit = 0] up to [LvlDebug = 4]. *)
Inductive Lvl : Type := LvlCrit | LvlError | LvlWarn | LvlInfo | LvlDebug.

Definition Lvl_to_Z (l : Lvl) : Z :=
  match l with
  | LvlCrit => 0 | LvlError => 1 | LvlWarn => 2 | LvlInfo => 3 | LvlDebug => 4
  end.

(** The formatters [MakeFormatter] can select, named after the log15
    constructor that makes them. *)
Inductive Format : Type :=
| JsonFormat
| JsonFormatEx (pretty lineSeparated : bool)
| LogfmtFormat
| TerminalFormat.

(** [log15.Record], restricted to the fields handlers look at. *)
Record Record : Type := mkRecord {
  r_Lvl : Lvl;
  r_Msg : string;
  r_Ctx : list value
}.

(** A redigo connection, identified by a number chosen by the dialer. *)
Inductive Conn : Type := mkConn (id : nat).

(** [os.Stdout] and [os.Stderr]. *)
Inductive Stream : Type := Stdout | Stderr.

(** ** Handlers *)

(** [RedisHandler]: the unexported fields [conn] and [formatter] are nil
    until [Init] has run. *)
Record RedisHandler : Type := mkRedisHandler {
  Loc : string;
  Channel : string;
  conn : option Conn;
  formatter : option Format
}.

(** The handler objects [MakeHandler] can build: one constructor per log15
    constructor function, plus the package's own redis sink.  A child handler
    is a Go interface value and may be nil, hence [option handler]. *)
#[warnings="-register-all"]
Inductive handler : Type :=
| BufferedH (bufSize : Z) (h : option handler)
| CallerFileH (h : option handler)
| CallerFuncH (h : option handler)
| CallerStackH (format : string) (h : option handler)
| DiscardH
| FailoverH (hs : list (option handler))
| FileH (path : string) (fmtr : option Format)
| LazyH (h : option handler)
| LvlFilterH (maxLvl : Lvl) (h : option handler)
| MatchFilterH (key : string) (val : value) (h : option handler)
| MultiH (hs : list (option handler))
| NetH (network address : string) (fmtr : option Format)
| StreamH (wr : Stream) (fmtr : option Format)
| SyncH (h : option handler)
| SyslogH (tag : string) (fmtr : option Format)
| SyslogNetH (net address tag : string) (fmtr : option Format)
| RedisH (p : RedisHandler).

(** [type Handler log15.Handler]: an interface value, [None] being nil. *)
Definition Handler : Type := option handler.

(** ** The world outside the package *)

(** What a sink writes to. *)
Inductive Writer : Type :=
| WStream (s : Stream)
| WFile (path : string)
| WNet (network address : string)
| WSyslog (tag : string)
| WSyslogNet (net address tag : string).

(** An argument of a redis command. *)
Inductive redis_arg : Type :=
| ArgString (s : string)
| ArgBytes (b : list Byte.byte).

(** External actions, in the order they happen. *)
Inductive event : Type :=
| EvOpenFile (path : string)
| EvNetDial (network address : string)
| EvSyslogNew (tag : string)
| EvSyslogDial (net address tag : string)
| EvRedisDial (network address : string)
| EvRedisDo (c : Conn) (cmd : string) (args : list redis_arg)
| EvWrite (w : Writer) (b : list Byte.byte).

(** The state of the process: the history of external actions and the
    handler installed in log15's root logger. *)
Record World : Type := mkWorld {
  events : list event;
  root_handler : Handler
}.

(** The answers of everything outside the package.  Answers of the operating
    system and of the network may depend on the history so far. *)
Record Env : Type := mkEnv {
  (* log15 and fmt, pure *)
  LvlFromString : string -> Lvl * option lib_error;
  Format_Format : Format -> Record -> list Byte.byte;
  Sprintf : string -> list value -> string;
  caller_file : Record -> Record;
  caller_func : Record -> Record;
  caller_stack : string -> Record -> Record;
  ctx_match : string -> value -> Record -> bool;
  (* the Go runtime: largest capacity [make(chan *Record, n)] accepts *)
  maxChanCap : Z;
  (* the operating system and the network *)
  os_OpenFile : list event -> string -> option lib_error;
  net_Dial : list event -> string -> string -> option lib_error;
  syslog_New : list event -> string -> option lib_error;
  syslog_Dial : list event -> string -> string -> string -> option lib_error;
  redis_Dial : list event -> string -> string -> option Conn * option lib_error;
  conn_Do : list event -> Conn -> string -> list redis_arg -> option lib_error;
  wr_Write : list event -> Writer -> list Byte.byte -> option lib_error;
  IsTerminal : list event -> Z -> bool
}.

(** ** Computations: state passing with panics *)

Inductive outcome (A : Type) : Type :=
| Done (a : A)
| Panicked (msg : string).
Arguments Done {A} a.
Arguments Panicked {A} msg.

Definition M (A : Type) : Type := World -> outcome A * World.

Definition ret {A : Type} (a : A) : M A := fun w => (Done a, w).

Definition bind {A B : Type} (c : M A) (k : A -> M B) : M B :=
  fun w =>
    match c w with
    | (Done a, w') => k a w'
    | (Panicked msg, w') => (Panicked msg, w')
    end.

Definition panic {A : Type} (msg : string) : M A := fun w => (Panicked msg, w).

(** Perform the external action [e]; [answer] sees the history before it. *)
Definition perform {A : Type} (e : event) (answer : list event -> A) : M A :=
  fun w => (Done (answer (events w)),
            mkWorld (events w ++ [e]) (root_handler w)).

Notation "x <- c ;; k" := (bind c (fun x => k))
  (at level 20, c at level 99, k at level 200, only parsing).
Notation "' pat <- c ;; k" := (bind c (fun x => match x with pat => k end))
  (at level 20, pat pattern, c at level 99, k at level 200, only parsing).

(** A library call that returns [(T, error)]: exactly one side is nil. *)
Definition lib_result {A : Type} (a : A) (err : option lib_error)
  : option A * option error :=
  match err with
  | None => (Some a, None)
  | Some e => (None, Some (Foreign e))
  end.

(** ** The log15 constructors used by the package *)

(** Modelled from the spec: log15 is a collaborator outside the repository.
    Its constructors only assemble the handler object, except for the four
    sinks that acquire their resource while being built and so return
    [(Handler, error)], "surfaced as their own underlying error". *)
Module log15.

(** [BufferedHandler] allocates [make(chan *Record, bufSize)], which panics
    for a negative or too large capacity. *)
Definition BufferedHandler (env : Env) (bufSize : Z) (h : Handler) : M Handler :=
  if (bufSize <? 0) || (maxChanCap env <? bufSize)
  then panic "makechan: size out of range"
  else ret (Some (BufferedH bufSize h)).

Definition CallerFileHandler (h : Handler) : Handler := Some (CallerFileH h).
Definition CallerFuncHandler (h : Handler) : Handler := Some (CallerFuncH h).
Definition CallerStackHandler (format : string) (h : Handler) : Handler :=
  Some (CallerStackH format h).
Definition DiscardHandler : Handler := Some DiscardH.
Definition FailoverHandler (hs : list Handler) : Handler := Some (FailoverH hs).
Definition LazyHandler (h : Handler) : Handler := Some (LazyH h).
Definition LvlFilterHandler (maxLvl : Lvl) (h : Handler) : Handler :=
  Some (LvlFilterH maxLvl h).
Definition MatchFilterHandler (key : string) (val : value) (h : Handler) : Handler :=
  Some (MatchFilterH key val h).
Definition MultiHandler (hs : list Handler) : Handler := Some (MultiH hs).
Definition StreamHandler (wr : Stream) (fmtr : option Format) : Handler :=
  Some (StreamH wr fmtr).
Definition SyncHandler (h : Handler) : Handler := Some (SyncH h).

(** The four constructors that acquire a resource return [(Handler, error)]. *)
Definition FileHandler (env : Env) (path : string) (fmtr : option Format)
  : M (Handler * option error) :=
  err <- perform (EvOpenFile path) (fun tr => os_OpenFile env tr path) ;;
  ret (lib_result (FileH path fmtr) err).

Definition NetHandler (env : Env) (network address : string) (fmtr : option Format)
  : M (Handler * option error) :=
  err <- perform (EvNetDial network address)
                 (fun tr => net_Dial env tr network address) ;;
  ret (lib_result (NetH network address fmtr) err).

Definition SyslogHandler (env : Env) (tag : string) (fmtr : option Format)
  : M (Handler * option error) :=
  err <- perform (EvSyslogNew tag) (fun tr => syslog_New env tr tag) ;;
  ret (lib_result (SyslogH tag fmtr) err).

Definition SyslogNetHandler (env : Env) (net address tag : string)
    (fmtr : option Format) : M (Handler * option error) :=
  err <- perform (EvSyslogDial net address tag)
                 (fun tr => syslog_Dial env tr net address tag) ;;
  ret (lib_result (SyslogNetH net address tag fmtr) err).

End log15.

(** ** [MakeFormatter] *)

Definition MakeFormatter (format : FormatConf) : option Format * option error :=
  match format with
  | VString format_name =>
      if String.eqb format_name "json" then (Some JsonFormat, None)
      else if String.eqb format_name "json_pretty" then (Some (JsonFormatEx true true), None)
      else if String.eqb format_name "logfmt" then (Some LogfmtFormat, None)
      else if String.eqb format_name "terminal" then (Some TerminalFormat, None)
      else (None, Some BadConf)
  | _ => (None, Some BadConf)
  end.

(** ** [RedisHandler.Init] *)

(** The receiver is a pointer: the updated struct is returned with the error. *)
Definition RedisHandler_Init (env : Env) (p : RedisHandler)
  : M (RedisHandler * option error) :=
  let p := mkRedisHandler (Loc p) (Channel p) (conn p) (Some JsonFormat) in
  '(c, err) <- perform (EvRedisDial "tcp" (Loc p))
                       (fun tr => redis_Dial env tr "tcp" (Loc p)) ;;
  ret (mkRedisHandler (Loc p) (Channel p) c (formatter p), option_map Foreign err).

(** ** [MakeHandler] *)

(** What [MakeHandler] returns: [(Handler, error)]. *)
Definition result : Type := (Handler * option error)%type.

Definition bad_conf : M result := ret (None, Some BadConf).

Section Cases.

Variable env : Env.

(** [rec a] stands for the recursive call [MakeHandler(a.(HandlerConf))]. *)
Variable rec : value -> M result.

(** The idiom shared by every kind with a nested configuration:
    [hdata, ok := a.(HandlerConf)], [BadConf] if not ok, then
    [h, err := MakeHandler(hdata)], [return nil, err] if [err != nil]. *)
Definition with_inner (a : value) (k : Handler -> M result) : M result :=
  match a with
  | VConf hdata =>
      '(h, err) <- rec a ;;
      match err with
      | Some _ => ret (None, err)
      | None => k h
      end
  | _ => bad_conf
  end.

(** [formatter, err := MakeFormatter(a)], [return nil, err] if [err != nil]. *)
Definition with_formatter (a : value) (k : option Format -> M result) : M result :=
  let '(formatter, err) := MakeFormatter a in
  match err with
  | Some _ => ret (None, err)
  | None => k formatter
  end.

Definition case_buffered (args : list value) : M result :=
  match args with
  | [VInt bufSize; a1] =>
      with_inner a1 (fun h =>
        b <- log15.BufferedHandler env bufSize h ;; ret (b, None))
  | _ => bad_conf
  end.

Definition case_caller_file (args : list value) : M result :=
  match args with
  | [a0] => with_inner a0 (fun h => ret (log15.CallerFileHandler h, None))
  | _ => bad_conf
  end.

Definition case_caller_func (args : list value) : M result :=
  match args with
  | [a0] => with_inner a0 (fun h => ret (log15.CallerFuncHandler h, None))
  | _ => bad_conf
  end.

Definition case_caller_stack (args : list value) : M result :=
  match args with
  | [VString format; a1] =>
      with_inner a1 (fun h => ret (log15.CallerStackHandler format h, None))
  | _ => bad_conf
  end.

Definition case_discard (args : list value) : M result :=
  match args with
  | [] => ret (log15.DiscardHandler, None)
  | _ => bad_conf
  end.

(** [hs := make([]log15.Handler, len(args))] followed by
    [hs = append(hs, h)] in the loop. *)
Fixpoint failover_loop (rest : list value) (hs : list Handler) : M result :=
  match rest with
  | [] => ret (log15.FailoverHandler hs, None)
  | a :: rest' =>
      '(h, err) <- rec a ;;
      match err with
      | Some _ => ret (None, err)
      | None => failover_loop rest' (hs ++ [h])
      end
  end.

Definition case_failover (args : list value) : M result :=
  failover_loop args (replicate (length args) None).

Definition case_file (args : list value) : M result :=
  match args with
  | [VString path; a1] =>
      with_formatter a1 (fun formatter => log15.FileHandler env path formatter)
  | _ => bad_conf
  end.

Definition case_lazy (args : list value) : M result :=
  match args with
  | [a0] => with_inner a0 (fun h => ret (log15.LazyHandler h, None))
  | _ => bad_conf
  end.

Definition case_level_filter (args : list value) : M result :=
  match args with
  | [VString lvlString; a1] =>
      let '(lvl, err) := LvlFromString env lvlString in
      match err with
      | Some _ => bad_conf
      | None => with_inner a1 (fun h => ret (log15.LvlFilterHandler lvl h, None))
      end
  | _ => bad_conf
  end.

(** [value, ok := args[1].(interface{})] fails for the nil interface only. *)
Definition case_match_filter (args : list value) : M result :=
  match args with
  | [VString key; a1; a2] =>
      match a1 with
      | VNil => bad_conf
      | val => with_inner a2 (fun h => ret (log15.MatchFilterHandler key val h, None))
      end
  | _ => bad_conf
  end.

(** [hs := make([]log15.Handler, len(args))] followed by [hs[i] = h] in the
    loop; [i] stays below [len(hs)], so the assignment is never out of
    range. *)
Fixpoint multi_loop (rest : list value) (i : nat) (hs : list Handler) : M result :=
  match rest with
  | [] => ret (log15.MultiHandler hs, None)
  | a :: rest' =>
      '(h, err) <- rec a ;;
      match err with
      | Some _ => ret (None, err)
      | None => multi_loop rest' (S i) (<[i:=h]> hs)
      end
  end.

Definition case_multi (args : list value) : M result :=
  multi_loop args 0%nat (replicate (length args) None).

Definition case_net (args : list value) : M result :=
  match args with
  | [VString network; VString address; a2] =>
      with_formatter a2 (fun formatter =>
        log15.NetHandler env network address formatter)
  | _ => bad_conf
  end.

Definition case_stream (args : list value) : M result :=
  match args with
  | [VString stream_name; a1] =>
      let build (stream : Stream) :=
        with_formatter a1 (fun formatter =>
          ret (log15.StreamHandler stream formatter, None)) in
      if String.eqb stream_name "stdout" then build Stdout
      else if String.eqb stream_name "stderr" || String.eqb stream_name ""
      then build Stderr
      else bad_conf
  | _ => bad_conf
  end.

Definition case_sync (args : list value) : M result :=
  match args with
  | [a0] => with_inner a0 (fun h => ret (log15.SyncHandler h, None))
  | _ => bad_conf
  end.

Definition case_syslog (args : list value) : M result :=
  match args with
  | [VString tag; a1] =>
      with_formatter a1 (fun formatter => log15.SyslogHandler env tag formatter)
  | _ => bad_conf
  end.

Definition case_syslog_net (args : list value) : M result :=
  match args with
  | [VString network; VString address; VString tag; a3] =>
      with_formatter a3 (fun formatter =>
        log15.SyslogNetHandler env network address tag formatter)
  | _ => bad_conf
  end.

Definition case_redis (args : list value) : M result :=
  match args with
  | [VString ip_port; VString channel] =>
      let redis_h := mkRedisHandler ip_port channel None None in
      '(redis_h, err) <- RedisHandler_Init env redis_h ;;
      match err with
      | Some _ => ret (None, err)
      | None => ret (log15.SyncHandler (Some (RedisH redis_h)), None)
      end
  | _ => bad_conf
  end.

(** [switch name { ... }] *)
Definition switch_name (name : string) (args : list value) : M result :=
  if String.eqb name "buffered" then case_buffered args
  else if String.eqb name "caller_file" then case_caller_file args
  else if String.eqb name "caller_func" then case_caller_func args
  else if String.eqb name "caller_stack" then case_caller_stack args
  else if String.eqb name "discard" then case_discard args
  else if String.eqb name "failover" then case_failover args
  else if String.eqb name "file" then case_file args
  else if String.eqb name "lazy" then case_lazy args
  else if String.eqb name "level_filter" then case_level_filter args
  else if String.eqb name "match_filter" then case_match_filter args
  else if String.eqb name "multi" then case_multi args
  else if String.eqb name "net" then case_net args
  else if String.eqb name "stream" then case_stream args
  else if String.eqb name "sync" then case_sync args
  else if String.eqb name "syslog" then case_syslog args
  else if String.eqb name "syslog_net" then case_syslog_net args
  else if String.eqb name "redis" then case_redis args
  else bad_conf.

End Cases.

(** [MakeHandler_assert env v] is [MakeHandler(v.(HandlerConf))]: the
    unchecked assertion panics when [v] does not hold a [HandlerConf], and so
    does [conf[0].(string)] when the first element is not a string. *)
Fixpoint MakeHandler_assert (env : Env) (v : value) {struct v} : M result :=
  match v with
  | VConf conf =>
      match conf with
      | [] => bad_conf
      | c0 :: args =>
          match c0 with
          | VString name => switch_name env (MakeHandler_assert env) name args
          | _ => panic "interface conversion: interface {} is not string"
          end
      end
  | _ => panic "interface conversion: interface {} is not log.HandlerConf"
  end.

Definition MakeHandler (env : Env) (conf : HandlerConf) : M result :=
  MakeHandler_assert env (VConf conf).

(** ** [MakeBasicHandler] and [MakeNoopHandler] *)

(** [terminal.IsTerminal(fd)]: a query, it leaves no trace. *)
Definition terminal_IsTerminal (env : Env) (fd : Z) : M bool :=
  fun w => (Done (IsTerminal env (events w) fd), w).

(** [int(os.Stdout.Fd())] *)
Definition Stdout_Fd : Z := 1.

Definition MakeBasicHandler (env : Env) (fpath lvl : string) (quiet : bool)
  : M result :=
  let fileHandlerConf : HandlerConf := [VString "discard"] in
  let streamHandlerConf : HandlerConf := [VString "discard"] in
  let fileHandlerConf : HandlerConf :=
    if negb (String.eqb fpath "")
    then [VString "file"; VString fpath; VString "json"]
    else fileHandlerConf in
  streamHandlerConf <-
    (if negb quiet then
       is_term <- terminal_IsTerminal env Stdout_Fd ;;
       if is_term
       then ret [VString "stream"; VString "stderr"; VString "terminal"]
       else ret [VString "stream"; VString "stderr"; VString "json"]
     else ret streamHandlerConf) ;;
  let finalHandlerConf : HandlerConf :=
    [VString "level_filter"; VString lvl;
     VConf [VString "caller_file";
            VConf [VString "multi"; VConf fileHandlerConf; VConf streamHandlerConf]]] in
  MakeHandler env finalHandlerConf.

Definition MakeNoopHandler (env : Env) : M result :=
  MakeHandler env [VString "discard"].

(** ** Logging through a handler *)

Definition nil_dereference : string :=
  "invalid memory address or nil pointer dereference".

(** [RedisHandler.Log] *)
Definition RedisHandler_Log (env : Env) (p : RedisHandler) (r : Record)
  : M (option error) :=
  match formatter p with
  | None => panic nil_dereference
  | Some f =>
      let b := Format_Format env f r in
      match conn p with
      | None => panic nil_dereference
      | Some c =>
          let args := [ArgString (Channel p); ArgBytes b] in
          err <- perform (EvRedisDo c "PUBLISH" args)
                         (fun tr => conn_Do env tr c "PUBLISH" args) ;;
          ret (option_map Foreign err)
      end
  end.

(** Modelled from the spec: the [Log] methods of the log15 handlers, which
    are not part of the repository.  Each one follows the "produces" column
    of the handler vocabulary: a sink writes the formatted record, a filter
    drops or forwards, a combinator forwards to its children.  Buffering
    delay and mutual exclusion are not observable in a sequential run and
    are left out; what call-site capture adds to a record and whether a
    context matches are answers of the [Env]. *)
Definition sink_Log (env : Env) (w : Writer) (fmtr : option Format) (r : Record)
  : M (option error) :=
  match fmtr with
  | None => panic nil_dereference
  | Some f =>
      let b := Format_Format env f r in
      err <- perform (EvWrite w b) (fun tr => wr_Write env tr w b) ;;
      ret (option_map Foreign err)
  end.

Section Combinators.

(** [call h r] is the method call [h.Log(r)] on an interface value. *)
Variable call : Handler -> Record -> M (option error).

(** Modelled from the spec: multi "fans out to all children". *)
Fixpoint multi_Log (hs : list Handler) (r : Record) : M (option error) :=
  match hs with
  | [] => ret None
  | h :: hs' => _ <- call h r ;; multi_Log hs' r
  end.

(** Modelled from the spec: failover "tries each in order until one
    succeeds"; when none does, the last error is returned. *)
Fixpoint failover_Log (hs : list Handler) (r : Record) (last : option error)
  : M (option error) :=
  match hs with
  | [] => ret last
  | h :: hs' =>
      err <- call h r ;;
      match err with
      | None => ret None
      | Some _ => failover_Log hs' r err
      end
  end.

End Combinators.

(** Modelled from the spec: level_filter "drops records below the named
    severity"; in log15 a lower [Lvl] is more severe. *)
Definition lvl_passes (maxLvl : Lvl) (r : Record) : bool :=
  Lvl_to_Z (r_Lvl r) <=? Lvl_to_Z maxLvl.

(** Modelled from the spec: [h.Log(r)] for each handler of the vocabulary;
    the redis sink is the package's own [RedisHandler.Log]. *)
Fixpoint Log (env : Env) (h : handler) (r : Record) {struct h} : M (option error) :=
  let call (c : Handler) (r : Record) : M (option error) :=
    match c with
    | None => panic nil_dereference
    | Some h' => Log env h' r
    end in
  match h with
  | BufferedH _ inner => _ <- call inner r ;; ret None
  | CallerFileH inner => call inner (caller_file env r)
  | CallerFuncH inner => call inner (caller_func env r)
  | CallerStackH format inner => call inner (caller_stack env format r)
  | DiscardH => ret None
  | FailoverH hs => failover_Log call hs r None
  | FileH path fmtr => sink_Log env (WFile path) fmtr r
  | LazyH inner => call inner r
  | LvlFilterH maxLvl inner =>
      if lvl_passes maxLvl r then call inner r else ret None
  | MatchFilterH key val inner =>
      if ctx_match env key val r then call inner r else ret None
  | MultiH hs => multi_Log call hs r
  | NetH network address fmtr => sink_Log env (WNet network address) fmtr r
  | StreamH wr fmtr => sink_Log env (WStream wr) fmtr r
  | SyncH inner => call inner r
  | SyslogH tag fmtr => sink_Log env (WSyslog tag) fmtr r
  | SyslogNetH net address tag fmtr => sink_Log env (WSyslogNet net address tag) fmtr r
  | RedisH p => RedisHandler_Log env p r
  end.

(** [h.Log(r)] on an interface value: a nil interface panics. *)
Definition Handler_Log (env : Env) (h : Handler) (r : Record) : M (option error) :=
  match h with
  | None => panic nil_dereference
  | Some h' => Log env h' r
  end.

(** ** The root logger and [log.go] *)

(** Modelled from the spec: log15's root logger is the "process-wide
    singleton handler slot" through which "all level-keyed logging calls
    funnel"; the handler's error is dropped. *)
Definition root_write (env : Env) (lvl : Lvl) (msg : string) (ctx : list value)
  : M unit :=
  fun w =>
    match Handler_Log env (root_handler w) (mkRecord lvl msg ctx) w with
    | (Done _, w') => (Done tt, w')
    | (Panicked m, w') => (Panicked m, w')
    end.

Definition Debug (env : Env) := root_write env LvlDebug.
Definition Info (env : Env) := root_write env LvlInfo.
Definition Warn (env : Env) := root_write env LvlWarn.
Definition Error (env : Env) := root_write env LvlError.
Definition Crit (env : Env) := root_write env LvlCrit.

Definition Printf (env : Env) (format : string) (v : list value) : M unit :=
  Debug env (Sprintf env format v) [].

Definition Panicf (env : Env) (format : string) (v : list value) : M unit :=
  let s := Sprintf env format v in
  _ <- Error env s [] ;;
  panic s.

Definition SetHandler (hdlr : Handler) : M unit :=
  fun w => (Done tt, mkWorld (events w) hdlr).

(** [LogToLog15.Write]: the bytes become the message of an info record. *)
Definition LogToLog15_Write (env : Env) (b : list Byte.byte)
  : M (Z * option error) :=
  _ <- Info env (string_of_list_byte b) [] ;;
  ret (Z.of_nat (length b), None).

(** [init]: the error of [MakeHandler] is dropped. *)
Definition init (env : Env) : M unit :=
  '(hdlr, _) <- MakeHandler env [VString "stream"; VString "stderr"; VString "terminal"] ;;
  SetHandler hdlr.

(** ** Two concrete environments *)

(** Modelled from the spec: [log15.LvlFromString], which is not part of the
    repository, accepts the names of "a fixed ordered severity scale
    {debug < info < warn < error < crit}". *)
Definition LvlFromString_scale (lvlString : string) : Lvl * option lib_error :=
  if String.eqb lvlString "debug" then (LvlDebug, None)
  else if String.eqb lvlString "info" then (LvlInfo, None)
  else if String.eqb lvlString "warn" then (LvlWarn, None)
  else if String.eqb lvlString "error" then (LvlError, None)
  else if String.eqb lvlString "crit" then (LvlCrit, None)
  else (LvlDebug, Some (LibError "Unknown level")).

(** An environment for running the definitions: every resource is available
    when [up] and none is otherwise; standard output is a terminal when
    [tty]; a formatter prints the message only. *)
Definition sample_env (up tty : bool) : Env :=
  let answer : option lib_error :=
    if up then None else Some (LibError "resource unavailable") in
  {| LvlFromString := LvlFromString_scale;
     Format_Format := fun _ r => list_byte_of_string (r_Msg r);
     Sprintf := fun format _ => format;
     caller_file := fun r => r;
     caller_func := fun r => r;
     caller_stack := fun _ r => r;
     ctx_match := fun _ _ _ => true;
     maxChanCap := 1024;
     os_OpenFile := fun _ _ => answer;
     net_Dial := fun _ _ _ => answer;
     syslog_New := fun _ _ => answer;
     syslog_Dial := fun _ _ _ _ => answer;
     redis_Dial := fun tr _ _ =>
       if up then (Some (mkConn (length tr)), None) else (None, answer);
     conn_Do := fun _ _ _ _ => answer;
     wr_Write := fun _ _ _ => answer;
     IsTerminal := fun _ _ => tty |}.

Definition online : Env := sample_env true false.
Definition offline : Env := sample_env false false.

Definition fresh : World := mkWorld [] None.

(** ** The validity invariant of the data model *)

(** The argument types of the handler vocabulary: [size:int], [x:string],
    [value:any], [format:selector], [inner:config], [level:string] and
    [stream:string]. *)
Inductive argtype : Type :=
| TSize | TString | TAny | TFormat | TConfig | TLevel | TStreamName.

Inductive signature : Type :=
| Fixed (ts : list argtype)
| Variadic.

(** The handler kind vocabulary, row by row. *)
Definition vocabulary : list (string * signature) :=
  [ ("buffered", Fixed [TSize; TConfig]);
    ("caller_file", Fixed [TConfig]);
    ("caller_func", Fixed [TConfig]);
    ("caller_stack", Fixed [TString; TConfig]);
    ("discard", Fixed []);
    ("failover", Variadic);
    ("file", Fixed [TString; TFormat]);
    ("lazy", Fixed [TConfig]);
    ("level_filter", Fixed [TLevel; TConfig]);
    ("match_filter", Fixed [TString; TAny; TConfig]);
    ("multi", Variadic);
    ("net", Fixed [TString; TString; TFormat]);
    ("stream", Fixed [TStreamName; TFormat]);
    ("sync", Fixed [TConfig]);
    ("syslog", Fixed [TString; TFormat]);
    ("syslog_net", Fixed [TString; TString; TString; TFormat]);
    ("redis", Fixed [TString; TString]) ].

Fixpoint lookup_kind (name : string) (table : list (string * signature))
  : option signature :=
  match table with
  | [] => None
  | (k, s) :: table' => if String.eqb name k then Some s else lookup_kind name table'
  end.

(** The encodings a format selector may name. *)
Definition encodings : list string := ["json"; "json_pretty"; "logfmt"; "terminal"].

Definition mem_string (s : string) (l : list string) : bool :=
  existsb (String.eqb s) l.

Section Validity.

Variable env : Env.

(** Which buffer sizes are accepted, and which nested configurations are. *)
Variable size_ok : Z -> bool.
Variable inner_ok : value -> bool.

Definition arg_ok (t : argtype) (a : value) : bool :=
  match t, a with
  | TSize, VInt n => size_ok n
  | TString, VString _ => true
  | TAny, VNil => false
  | TAny, _ => true
  | TFormat, VString s => mem_string s encodings
  | TConfig, VConf _ => inner_ok a
  | TLevel, VString s =>
      match snd (LvlFromString env s) with None => true | Some _ => false end
  | TStreamName, VString s => mem_string s ["stdout"; "stderr"; ""]
  | _, _ => false
  end.

(** Exact positional argument count, each argument of its type. *)
Fixpoint args_ok (args : list value) (ts : list argtype) {struct args} : bool :=
  match args, ts with
  | [], [] => true
  | a :: args', t :: ts' => arg_ok t a && args_ok args' ts'
  | _, _ => false
  end.

Definition node_ok (name : string) (args : list value) : bool :=
  match lookup_kind name vocabulary with
  | Some (Fixed ts) => args_ok args ts
  | Some Variadic => forallb inner_ok args
  | None => false
  end.

End Validity.

(** A buffer size the Go runtime accepts as a channel capacity. *)
Definition capacity_ok (env : Env) (n : Z) : bool :=
  (0 <=? n) && (n <=? maxChanCap env).

(** A value is a valid configuration when it holds a sequence headed by a
    kind of the vocabulary, with arguments of that kind's count and types,
    every nested configuration being valid in turn. *)
Fixpoint valid_value (env : Env) (v : value) {struct v} : bool :=
  match v with
  | VConf (VString name :: args) =>
      node_ok env (capacity_ok env) (valid_value env) name args
  | _ => false
  end.

Definition valid (env : Env) (conf : HandlerConf) : bool :=
  valid_value env (VConf conf).

(** The same check on one node only: kind, argument count and the types and
    names of its own arguments, whatever the nested configurations and the
    buffer size are. *)
Definition shape_ok (env : Env) (name : string) (args : list value) : bool :=
  node_ok env (fun _ => true) (fun _ => true) name args.

(** No resource acquisition ever fails. *)
Definition reliable (env : Env) : Prop :=
  (forall tr path, os_OpenFile env tr path = None) /\
  (forall tr network address, net_Dial env tr network address = None) /\
  (forall tr tag, syslog_New env tr tag = None) /\
  (forall tr net address tag, syslog_Dial env tr net address tag = None) /\
  (forall tr network address, snd (redis_Dial env tr network address) = None).

(** ** The recipe [basic], as the specification words it *)

Definition conf_discard : HandlerConf := [VString "discard"].
Definition conf_file (path format : string) : HandlerConf :=
  [VString "file"; VString path; VString format].
Definition conf_stream (stream format : string) : HandlerConf :=
  [VString "stream"; VString stream; VString format].
Definition conf_multi (children : list HandlerConf) : HandlerConf :=
  VString "multi" :: map VConf children.
Definition conf_caller_file (inner : HandlerConf) : HandlerConf :=
  [VString "caller_file"; VConf inner].
Definition conf_level_filter (level : string) (inner : HandlerConf) : HandlerConf :=
  [VString "level_filter"; VString level; VConf inner].

(** level_filter(level, caller_file(multi(fileConf, streamConf))), with
    [interactive] telling whether standard output is a terminal. *)
Definition basic_conf (path level : string) (quiet interactive : bool) : HandlerConf :=
  let fileConf :=
    match path with
    | EmptyString => conf_discard
    | String _ _ => conf_file path "json"
    end in
  let streamConf :=
    if quiet then conf_discard
    else conf_stream "stderr" (if interactive then "terminal" else "json") in
  conf_level_filter level (conf_caller_file (conf_multi [fileConf; streamConf])).

(** ** Vocabulary of the statements *)

(** The world once the external action [e] has happened. *)
Definition after (w : World) (e : event) : World :=
  mkWorld (events w ++ [e]) (root_handler w).

(** The arguments of the PUBLISH command for the record [r]. *)
Definition publish_args (env : Env) (channel : string) (f : Format) (r : Record)
  : list redis_arg :=
  [ArgString channel; ArgBytes (Format_Format env f r)].

(** How a result of the builder relates to the validity [ok] of what was
    built: a handler comes with no error and only when [ok]; [BadConf] and a
    panic only when not [ok]; a library error only when some resource was
    not available; nothing else is ever returned. *)
Definition agrees (env : Env) (ok : bool) (res : outcome result * World) : Prop :=
  match fst res with
  | Done (Some _, None) => ok = true
  | Done (None, Some BadConf) => ok = false
  | Done (None, Some (Foreign _)) => ~ reliable env
  | Done _ => False
  | Panicked _ => ok = false
  end.

(** The recursive call agrees with [inner_ok] on every argument. *)
Definition args_agree (env : Env) (inner_ok : value -> bool)
    (rec : value -> M result) (args : list value) : Prop :=
  Forall (fun a => forall w, agrees env (inner_ok a) (rec a w)) args.

(** ** What a configuration asks of the outside, and when a build is safe *)

(** The answer of the environment to an acquisition, given the history. *)
Definition answer (env : Env) (tr : list event) (e : event) : option lib_error :=
  match e with
  | EvOpenFile path => os_OpenFile env tr path
  | EvNetDial network address => net_Dial env tr network address
  | EvSyslogNew tag => syslog_New env tr tag
  | EvSyslogDial net address tag => syslog_Dial env tr net address tag
  | EvRedisDial network address => snd (redis_Dial env tr network address)
  | EvRedisDo _ _ _ | EvWrite _ _ => None
  end.

(** Attempt the acquisitions [reqs] in order, from the history [tr], up to
    the first one that fails: the acquisitions attempted, and the error of
    the failing one if there is one. *)
Fixpoint attempt (env : Env) (tr : list event) (reqs : list event)
  : list event * option lib_error :=
  match reqs with
  | [] => ([], None)
  | e :: rest =>
      match answer env tr e with
      | Some err => ([e], Some err)
      | None => let '(done, r) := attempt env (tr ++ [e]) rest in (e :: done, r)
      end
  end.

Section Resources.

(** The acquisitions of a nested configuration. *)
Variable rec : value -> list event.

(** Those of the one nested configuration of a kind: its last argument,
    when that is a configuration. *)
Fixpoint nested_resources (args : list value) : list event :=
  match args with
  | [] => []
  | a :: rest =>
      match rest with
      | [] => match a with VConf _ => rec a | _ => [] end
      | _ :: _ => nested_resources rest
      end
  end.

(** Those of all the nested configurations of a variadic kind, in order. *)
Fixpoint each_resources (args : list value) : list event :=
  match args with
  | [] => []
  | a :: rest => (rec a ++ each_resources rest)%list
  end.

Definition node_resources (name : string) (args : list value) : list event :=
  if String.eqb name "file" then
    match args with VString path :: _ => [EvOpenFile path] | _ => [] end
  else if String.eqb name "net" then
    match args with
    | VString network :: VString address :: _ => [EvNetDial network address]
    | _ => []
    end
  else if String.eqb name "syslog" then
    match args with VString tag :: _ => [EvSyslogNew tag] | _ => [] end
  else if String.eqb name "syslog_net" then
    match args with
    | VString net :: VString address :: VString tag :: _ =>
        [EvSyslogDial net address tag]
    | _ => []
    end
  else if String.eqb name "redis" then
    match args with VString ip_port :: _ => [EvRedisDial "tcp" ip_port] | _ => [] end
  else if String.eqb name "multi" || String.eqb name "failover" then
    each_resources args
  else nested_resources args.

End Resources.

(** The resources a valid configuration names, in configuration order: one
    acquisition for each file, net, syslog, syslog_net and redis sink. *)
Fixpoint resources (v : value) {struct v} : list event :=
  match v with
  | VConf (VString name :: args) => node_resources resources name args
  | _ => []
  end.

(** The outcome [res] of a build started in [w] is the one of attempting
    [reqs]: the world has the attempted acquisitions and nothing else; when
    none failed there is a handler and no error, and otherwise there is no
    handler and the error is the one of the failed acquisition, as it is. *)
Definition as_attempted (env : Env) (w : World) (reqs : list event)
    (res : outcome result * World) : Prop :=
  let '(done, err) := attempt env (events w) reqs in
  snd res = mkWorld (events w ++ done) (root_handler w) /\
  match err with
  | None => exists h, fst res = Done (Some h, None)
  | Some e => fst res = Done (None, Some (Foreign e))
  end.

Section Safety.

Variable env : Env.

(** Which nested configurations are safe, and which are valid. *)
Variable rec : value -> bool.
Variable inner_valid : value -> bool.

(** The nested configurations among the arguments of a fixed-arity kind. *)
Fixpoint safe_args (args : list value) (ts : list argtype) {struct args} : bool :=
  match args, ts with
  | a :: args', t :: ts' =>
      match t with TConfig => rec a | _ => true end && safe_args args' ts'
  | _, _ => true
  end.

(** The elements of a variadic kind, up to the first that is not valid:
    the loop asserts each one it reaches to be a configuration. *)
Fixpoint safe_each (args : list value) : bool :=
  match args with
  | [] => true
  | a :: rest => rec a && (if inner_valid a then safe_each rest else true)
  end.

(** A node is safe when nothing it reaches can panic: for a fixed-arity kind
    whose own arguments pass, the nested configuration is safe and, if the
    node is valid but for the buffer size, the size is one the runtime
    accepts; a node that is rejected on its own arguments reaches nothing. *)
Definition safe_node (name : string) (args : list value) : bool :=
  match lookup_kind name vocabulary with
  | None => true
  | Some Variadic => safe_each args
  | Some (Fixed ts) =>
      if node_ok env (fun _ => true) (fun _ => true) name args
      then safe_args args ts
           && implb (node_ok env (fun _ => true) inner_valid name args)
                    (node_ok env (capacity_ok env) inner_valid name args)
      else true
  end.

End Safety.

(** A configuration whose build reaches no unchecked type assertion that
    fails and no buffer size the runtime refuses: every node examined,
    up to the first one that is not valid, has a string as first element, the
    elements of "multi" and "failover" examined are configurations, and the
    size of a "buffered" whose nested configuration is valid is accepted. *)
Fixpoint safe_value (env : Env) (v : value) {struct v} : bool :=
  match v with
  | VConf [] => true
  | VConf (VString name :: args) =>
      safe_node env (safe_value env) (valid_value env) name args
  | _ => false
  end.

Definition safe (env : Env) (conf : HandlerConf) : bool :=
  safe_value env (VConf conf).

(** A computation that returns, in every world: it does not panic. *)
Definition returns {A : Type} (c : M A) : Prop :=
  forall w, exists a w', c w = (Done a, w').

(** ** Vocabulary of the further properties *)

(** The external actions that acquire a resource, as opposed to those that
    send a record somewhere. *)
Definition acquisition (e : event) : bool :=
  match e with
  | EvOpenFile _ | EvNetDial _ _ | EvSyslogNew _ | EvSyslogDial _ _ _
  | EvRedisDial _ _ => true
  | EvRedisDo _ _ _ | EvWrite _ _ => false
  end.

(** [w'] is [w] after some more acquisitions, and nothing else. *)
Definition acquired (w w' : World) : Prop :=
  root_handler w' = root_handler w /\
  exists evs : list event,
    events w' = (events w ++ evs)%list /\ forallb acquisition evs = true.

(** A computation whose only external actions are acquisitions. *)
Definition acquires_only {A : Type} (c : M A) : Prop :=
  forall w, acquired w (snd (c w)).

(** The kinds that wrap one nested configuration, by the elements that
    precede it; the answer is the layer the kind puts around the inner
    handler. *)
Definition wrapper_of (env : Env) (head : list value) : option (Handler -> handler) :=
  match head with
  | [VString name] =>
      if String.eqb name "caller_file" then Some CallerFileH
      else if String.eqb name "caller_func" then Some CallerFuncH
      else if String.eqb name "lazy" then Some LazyH
      else if String.eqb name "sync" then Some SyncH
      else None
  | [VString name; VString s] =>
      if String.eqb name "caller_stack" then Some (CallerStackH s)
      else if String.eqb name "level_filter" then
        match LvlFromString env s with
        | (lvl, None) => Some (LvlFilterH lvl)
        | (_, Some _) => None
        end
      else None
  | [VString name; VInt n] =>
      if String.eqb name "buffered" && capacity_ok env n
      then Some (BufferedH n) else None
  | [VString name; VString key; val] =>
      if String.eqb name "match_filter" then
        match val with
        | VNil => None
        | _ => Some (MatchFilterH key val)
        end
      else None
  | _ => None
  end.

(** The outcome of a wrapper kind, given the outcome of its nested
    configuration. *)
Definition wrapped (layer : Handler -> handler) (inner : outcome result * World)
  : outcome result * World :=
  match inner with
  | (Done (h, None), w') => (Done (Some (layer h), None), w')
  | (Done (_, Some e), w') => (Done (None, Some e), w')
  | (Panicked msg, w') => (Panicked msg, w')
  end.

(** The configurations [args] build one after the other, from [w] to [w'],
    each without an error, giving the handlers [hs] in that order. *)
Inductive built_in_order (rec : value -> M result)
  : list value -> World -> list Handler -> World -> Prop :=
| built_none (w : World) : built_in_order rec [] w [] w
| built_next (a : value) (args : list value) (w w1 w' : World)
    (h : Handler) (hs : list Handler) :
    rec a w = (Done (h, None), w1) ->
    built_in_order rec args w1 hs w' ->
    built_in_order rec (a :: args) w (h :: hs) w'.

(** An outcome other than a handler without an error. *)
Definition failed (res : outcome result) : Prop :=
  match res with
  | Done (_, None) => False
  | Done (_, Some _) => True
  | Panicked _ => True
  end.

(** What is left of a failed outcome for the caller: no handler. *)
Definition without_handler (res : outcome result) : outcome result :=
  match res with
  | Done (_, err) => Done (None, err)
  | Panicked msg => Panicked msg
  end.

(** The handler tree of the recipe [basic]. *)
Definition basic_handler (lvl : Lvl) (file stream : handler) : handler :=
  LvlFilterH lvl (Some (CallerFileH (Some (MultiH [Some file; Some stream])))).

(** The stream branch of the recipe [basic]. *)
Definition basic_stream (quiet interactive : bool) : handler :=
  if quiet then DiscardH
  else StreamH Stderr (Some (if interactive then TerminalFormat else JsonFormat)).

(** * Properties *)

(** ** Unfolding [MakeHandler] *)

Lemma MakeHandler_assert_conf (env : Env) (conf : HandlerConf) :
  MakeHandler_assert env (VConf conf) = MakeHandler env conf.
Proof. reflexivity. Qed.

Lemma MakeHandler_empty (env : Env) : MakeHandler env [] = bad_conf.
Proof. reflexivity. Qed.

Lemma MakeHandler_named (env : Env) (name : string) (args : list value) :
  MakeHandler env (VString name :: args)
  = switch_name env (MakeHandler_assert env) name args.
Proof. reflexivity. Qed.

(** ** The formatter builder *)

(** [MakeFormatter] accepts exactly the selectors the data model lists. *)
Lemma MakeFormatter_decides (a : value) :
  (exists f, MakeFormatter a = (Some f, None)
             /\ forall env size_ok inner_ok, arg_ok env size_ok inner_ok TFormat a = true)
  \/ (MakeFormatter a = (None, Some BadConf)
      /\ forall env size_ok inner_ok, arg_ok env size_ok inner_ok TFormat a = false).
Proof.
  destruct a as [| b | n | s | t | c]; try (right; split; reflexivity).
  unfold MakeFormatter. cbn [arg_ok]. unfold mem_string, encodings. cbn [existsb].
  destruct (String.eqb s "json"); [left; eexists; split; reflexivity |].
  destruct (String.eqb s "json_pretty"); [left; eexists; split; reflexivity |].
  destruct (String.eqb s "logfmt"); [left; eexists; split; reflexivity |].
  destruct (String.eqb s "terminal"); [left; eexists; split; reflexivity |].
  right; split; reflexivity.
Qed.

(** C3: [MakeFormatter] returns a formatter and no error exactly for the
    selectors "json", "json_pretty", "logfmt" and "terminal", mapped to
    [JsonFormat], [JsonFormatEx true true], [LogfmtFormat] and
    [TerminalFormat]; for any other value, string or not, it returns no
    formatter and [BadConf].  The function is pure. *)
Theorem MakeFormatter_selectors (format : FormatConf) :
  (format = VString "json" /\ MakeFormatter format = (Some JsonFormat, None)) \/
  (format = VString "json_pretty"
   /\ MakeFormatter format = (Some (JsonFormatEx true true), None)) \/
  (format = VString "logfmt" /\ MakeFormatter format = (Some LogfmtFormat, None)) \/
  (format = VString "terminal"
   /\ MakeFormatter format = (Some TerminalFormat, None)) \/
  (~ In format (map VString encodings)
   /\ MakeFormatter format = (None, Some BadConf)).
Proof.
  assert (Hother : forall v, (forall s, v <> VString s) ->
            ~ In v (map VString encodings)).
  { intros v Hv Hin. apply in_map_iff in Hin as (s & Hs & _).
    exact (Hv s (eq_sym Hs)). }
  destruct format as [| b | n | s | t | c];
    try (do 4 right; split; [apply Hother; discriminate | reflexivity]).
  unfold MakeFormatter.
  destruct (String.eqb_spec s "json") as [-> | N1]; [left; easy |].
  destruct (String.eqb_spec s "json_pretty") as [-> | N2]; [right; left; easy |].
  destruct (String.eqb_spec s "logfmt") as [-> | N3]; [do 2 right; left; easy |].
  destruct (String.eqb_spec s "terminal") as [-> | N4]; [do 3 right; left; easy |].
  do 4 right. split; [| reflexivity].
  simpl. intros [H | [H | [H | [H | []]]]]; congruence.
Qed.

(** ** The variadic kinds *)

(** C9: a configuration holding only the kind "multi", or only the kind
    "failover", builds a handler over an empty list of children, without an
    error. *)
Theorem MakeHandler_variadic_empty (env : Env) (w : World) :
  MakeHandler env [VString "multi"] w = (Done (Some (MultiH []), None), w) /\
  MakeHandler env [VString "failover"] w = (Done (Some (FailoverH []), None), w).
Proof. split; reflexivity. Qed.

(** ** The kind "stream" *)

(** C4: in a "stream" configuration with two arguments, the name "stdout"
    selects standard output, "stderr" and the empty name select standard
    error, and every other name yields [BadConf] and no handler; with one of
    the three names and a format selector [MakeFormatter] accepts, the
    result is the stream handler over the selected stream. *)
Theorem MakeHandler_stream (env : Env) (w : World) (stream_name : string)
    (format : value) :
  let built := MakeHandler env [VString "stream"; VString stream_name; format] w in
  (forall f, MakeFormatter format = (Some f, None) ->
     (stream_name = "stdout" ->
        built = (Done (Some (StreamH Stdout (Some f)), None), w)) /\
     (stream_name = "stderr" \/ stream_name = "" ->
        built = (Done (Some (StreamH Stderr (Some f)), None), w))) /\
  (stream_name <> "stdout" -> stream_name <> "stderr" -> stream_name <> "" ->
     built = (Done (None, Some BadConf), w)).
Proof.
  cbv zeta. rewrite MakeHandler_named.
  change (switch_name env (MakeHandler_assert env) "stream"
            [VString stream_name; format])
    with (case_stream [VString stream_name; format]).
  unfold case_stream, with_formatter.
  split.
  - intros f Hf. rewrite Hf. split.
    + intros ->. reflexivity.
    + intros [-> | ->]; reflexivity.
  - intros N1 N2 N3.
    apply String.eqb_neq in N1, N2, N3. rewrite N1, N2, N3. reflexivity.
Qed.

Lemma MakeHandler_stream_witness :
  MakeHandler online [VString "stream"; VString "stdout"; VString "logfmt"] fresh
    = (Done (Some (StreamH Stdout (Some LogfmtFormat)), None), fresh) /\
  MakeHandler online [VString "stream"; VString ""; VString "logfmt"] fresh
    = (Done (Some (StreamH Stderr (Some LogfmtFormat)), None), fresh) /\
  MakeHandler online [VString "stream"; VString "stdin"; VString "logfmt"] fresh
    = (Done (None, Some BadConf), fresh).
Proof.
  split; [| split].
  - apply (MakeHandler_stream online fresh "stdout" (VString "logfmt"));
      reflexivity.
  - apply (MakeHandler_stream online fresh "" (VString "logfmt"));
      [reflexivity | right; reflexivity].
  - apply (MakeHandler_stream online fresh "stdin" (VString "logfmt"));
      discriminate.
Defined.

(** ** The kind "level_filter" *)

(** C5: in a "level_filter" configuration with two arguments, a level string
    that [LvlFromString] rejects yields [BadConf], never the parse error;
    a level string that maps to a severity, with a nested configuration that
    builds, yields the level filter at that severity around the built
    handler. *)
Theorem MakeHandler_level_filter (env : Env) (w : World) (lvlString : string)
    (a1 : value) :
  let built := MakeHandler env [VString "level_filter"; VString lvlString; a1] w in
  (forall lvl e, LvlFromString env lvlString = (lvl, Some e) ->
     built = (Done (None, Some BadConf), w)
     /\ built <> (Done (None, Some (Foreign e)), w)) /\
  (forall lvl hdata h w',
     LvlFromString env lvlString = (lvl, None) ->
     a1 = VConf hdata ->
     MakeHandler env hdata w = (Done (h, None), w') ->
     built = (Done (Some (LvlFilterH lvl h), None), w')).
Proof.
  cbv zeta. rewrite MakeHandler_named.
  change (switch_name env (MakeHandler_assert env) "level_filter"
            [VString lvlString; a1])
    with (case_level_filter env (MakeHandler_assert env) [VString lvlString; a1]).
  unfold case_level_filter. split.
  - intros lvl e ->. split; [reflexivity | discriminate].
  - intros lvl hdata h w' -> -> Hinner.
    unfold with_inner, bind. rewrite MakeHandler_assert_conf, Hinner. reflexivity.
Qed.

Lemma MakeHandler_level_filter_witness :
  MakeHandler online [VString "level_filter"; VString "verbose"; VInt 0] fresh
    = (Done (None, Some BadConf), fresh) /\
  MakeHandler online
    [VString "level_filter"; VString "warn"; VConf [VString "discard"]] fresh
    = (Done (Some (LvlFilterH LvlWarn (Some DiscardH)), None), fresh).
Proof.
  split.
  - apply (proj1 (MakeHandler_level_filter online fresh "verbose" (VInt 0))
             LvlDebug (LibError "Unknown level")).
    reflexivity.
  - apply (proj2 (MakeHandler_level_filter online fresh "warn"
                    (VConf [VString "discard"]))
             LvlWarn [VString "discard"] (Some DiscardH) fresh);
      reflexivity.
Defined.

(** ** The redis sink *)

(** C6: a "redis" configuration with two strings dials once, while the
    handler is built.  When the dial fails the build returns no handler and
    the dialer's own error; when it succeeds the build returns the redis
    sink, holding the connection, inside [SyncHandler].  Logging through the
    built handler dials no more: it issues one command on that connection. *)
Theorem MakeHandler_redis (env : Env) (w : World) (ip_port channel : string) :
  let built := MakeHandler env [VString "redis"; VString ip_port; VString channel] w in
  let dialed := after w (EvRedisDial "tcp" ip_port) in
  (forall c e, redis_Dial env (events w) "tcp" ip_port = (c, Some e) ->
     built = (Done (None, Some (Foreign e)), dialed)) /\
  (forall c, redis_Dial env (events w) "tcp" ip_port = (c, None) ->
     built = (Done (Some (SyncH (Some (RedisH
                (mkRedisHandler ip_port channel c (Some JsonFormat))))), None),
              dialed)) /\
  (forall c r w2,
     let h := SyncH (Some (RedisH
                (mkRedisHandler ip_port channel (Some c) (Some JsonFormat)))) in
     let args := publish_args env channel JsonFormat r in
     Log env h r w2
     = (Done (option_map Foreign (conn_Do env (events w2) c "PUBLISH" args)),
        after w2 (EvRedisDo c "PUBLISH" args))).
Proof.
  cbv zeta. rewrite MakeHandler_named.
  change (switch_name env (MakeHandler_assert env) "redis"
            [VString ip_port; VString channel])
    with (case_redis env [VString ip_port; VString channel]).
  unfold case_redis, RedisHandler_Init, bind, perform, after. simpl.
  repeat split.
  - intros c e ->. reflexivity.
  - intros c ->. reflexivity.
Qed.

Lemma MakeHandler_redis_witness :
  MakeHandler offline [VString "redis"; VString "10.0.0.1:6379"; VString "logs"] fresh
    = (Done (None, Some (Foreign (LibError "resource unavailable"))),
       after fresh (EvRedisDial "tcp" "10.0.0.1:6379")) /\
  MakeHandler online [VString "redis"; VString "10.0.0.1:6379"; VString "logs"] fresh
    = (Done (Some (SyncH (Some (RedisH
         (mkRedisHandler "10.0.0.1:6379" "logs" (Some (mkConn 0))
            (Some JsonFormat))))), None),
       after fresh (EvRedisDial "tcp" "10.0.0.1:6379")).
Proof.
  split.
  - apply (proj1 (MakeHandler_redis offline fresh "10.0.0.1:6379" "logs") None).
    reflexivity.
  - apply (proj1 (proj2 (MakeHandler_redis online fresh "10.0.0.1:6379" "logs"))).
    reflexivity.
Defined.

(** C7: [RedisHandler.Init] installs the JSON formatter whatever the struct
    held before and whatever the dial answers.  A [Log] call formats the
    record with the formatter of the sink, issues exactly one command,
    PUBLISH with the channel and the formatted bytes, and returns the answer
    of that command as it is; it dials nothing.  So the initialised sink
    publishes JSON. *)
Theorem RedisHandler_fixed_json (env : Env) (p : RedisHandler) (w : World) :
  let dial := redis_Dial env (events w) "tcp" (Loc p) in
  let p' := mkRedisHandler (Loc p) (Channel p) (fst dial) (Some JsonFormat) in
  RedisHandler_Init env p w
  = (Done (p', option_map Foreign (snd dial)), after w (EvRedisDial "tcp" (Loc p)))
  /\ (forall q f c r w2,
        formatter q = Some f -> conn q = Some c ->
        let args := publish_args env (Channel q) f r in
        RedisHandler_Log env q r w2
        = (Done (option_map Foreign (conn_Do env (events w2) c "PUBLISH" args)),
           after w2 (EvRedisDo c "PUBLISH" args)))
  /\ (forall c r w2,
        fst dial = Some c ->
        let args := publish_args env (Channel p) JsonFormat r in
        RedisHandler_Log env p' r w2
        = (Done (option_map Foreign (conn_Do env (events w2) c "PUBLISH" args)),
           after w2 (EvRedisDo c "PUBLISH" args))).
Proof.
  cbv zeta. split; [| split].
  - unfold RedisHandler_Init, bind, perform, after, ret. cbn.
    now destruct (redis_Dial env (events w) "tcp" (Loc p)).
  - intros q f c r w2 Hf Hc. unfold RedisHandler_Log. now rewrite Hf, Hc.
  - intros c r w2 Hc. unfold RedisHandler_Log. cbn. now rewrite Hc.
Qed.

Lemma RedisHandler_fixed_json_witness :
  let sink := mkRedisHandler "h:6379" "logs" (Some (mkConn 0)) (Some JsonFormat) in
  let r := mkRecord LvlInfo "up" [] in
  RedisHandler_Log online sink r fresh
  = (Done None,
     after fresh (EvRedisDo (mkConn 0) "PUBLISH" (publish_args online "logs" JsonFormat r)))
  /\ RedisHandler_Log offline sink r fresh
  = (Done (Some (Foreign (LibError "resource unavailable"))),
     after fresh (EvRedisDo (mkConn 0) "PUBLISH" (publish_args offline "logs" JsonFormat r))).
Proof.
  cbv zeta. split.
  - apply (proj2 (proj2 (RedisHandler_fixed_json online
             (mkRedisHandler "h:6379" "logs" None (Some TerminalFormat)) fresh))
             (mkConn 0)).
    reflexivity.
  - apply (proj1 (proj2 (RedisHandler_fixed_json offline
             (mkRedisHandler "h:6379" "logs" None None) fresh))
             (mkRedisHandler "h:6379" "logs" (Some (mkConn 0)) (Some JsonFormat))
             JsonFormat (mkConn 0) (mkRecord LvlInfo "up" []) fresh);
      reflexivity.
Defined.

(** ** The recipe [basic] *)

(** C8: for every path, level and quiet flag, [MakeBasicHandler] hands to
    [MakeHandler] exactly the configuration
    level_filter(level, caller_file(multi(fileConf, streamConf))) of
    [basic_conf], where the terminal test is the one on standard output. *)
Theorem MakeBasicHandler_conf (env : Env) (fpath lvl : string) (quiet : bool)
    (w : World) :
  MakeBasicHandler env fpath lvl quiet w
  = MakeHandler env
      (basic_conf fpath lvl quiet (IsTerminal env (events w) Stdout_Fd)) w.
Proof.
  unfold MakeBasicHandler, basic_conf, bind, terminal_IsTerminal, ret.
  destruct quiet; cbv beta iota delta [negb].
  - destruct fpath; reflexivity.
  - destruct (IsTerminal env (events w) Stdout_Fd); destruct fpath; reflexivity.
Qed.

(** ** [Printf] *)

(** C10: [Printf] hands the [Sprintf]-formatted message, as a record of
    severity debug, to the handler of the root logger, and does nothing
    else: what happens is what that handler's [Log] does.  So under a
    level filter set to a severity above debug nothing happens at all, and
    neither under the discard handler. *)
Theorem Printf_logs_at_debug (env : Env) (format : string) (v : list value)
    (w : World) :
  let r := mkRecord LvlDebug (Sprintf env format v) [] in
  (forall res w', Handler_Log env (root_handler w) r w = (Done res, w') ->
     Printf env format v w = (Done tt, w')) /\
  (forall msg w', Handler_Log env (root_handler w) r w = (Panicked msg, w') ->
     Printf env format v w = (Panicked msg, w')) /\
  (forall maxLvl inner,
     root_handler w = Some (LvlFilterH maxLvl inner) ->
     Lvl_to_Z maxLvl < Lvl_to_Z LvlDebug ->
     Printf env format v w = (Done tt, w)) /\
  (root_handler w = Some DiscardH -> Printf env format v w = (Done tt, w)).
Proof.
  cbv zeta. unfold Printf, Debug, root_write. repeat split.
  - intros res w' ->. reflexivity.
  - intros msg w' ->. reflexivity.
  - intros maxLvl inner -> Hlt.
    destruct maxLvl; simpl in Hlt; try lia; reflexivity.
  - intros ->. reflexivity.
Qed.

Lemma Printf_logs_at_debug_witness :
  let quiet_root := mkWorld [] (Some (LvlFilterH LvlInfo (Some (StreamH Stdout (Some JsonFormat))))) in
  let loud_root := mkWorld [] (Some (StreamH Stderr (Some JsonFormat))) in
  Printf online "x=%d" [VInt 1] quiet_root = (Done tt, quiet_root) /\
  Printf online "x=%d" [VInt 1] loud_root
  = (Done tt, after loud_root (EvWrite (WStream Stderr) (list_byte_of_string "x=%d"))).
Proof.
  cbv zeta. split.
  - apply (proj1 (proj2 (proj2 (Printf_logs_at_debug online "x=%d" [VInt 1] _)))
             LvlInfo (Some (StreamH Stdout (Some JsonFormat)))).
    + reflexivity.
    + simpl. lia.
  - apply (proj1 (Printf_logs_at_debug online "x=%d" [VInt 1] _) None).
    reflexivity.
Defined.

(** ** The kind "failover" *)

(** The loop of "failover" appends to a list that already holds one nil per
    argument; the loop of "multi" fills that list in place. *)
Lemma failover_loop_app (rec : value -> M result) (rest : list value) :
  forall (hs : list Handler) (w : World) (h : handler) (err : option error) (w' : World),
    failover_loop rec rest hs w = (Done (Some h, err), w') ->
    exists built, h = FailoverH (hs ++ built) /\ length built = length rest.
Proof.
  induction rest as [| a rest IH]; intros hs w h err w'; simpl.
  - unfold ret. intros [= <- _ _]. exists []. now rewrite app_nil_r.
  - unfold bind. destruct (rec a w) as [[[h1 [e1 |]] | msg] w1]; try discriminate.
    intros Hloop. apply IH in Hloop as (built & -> & Hlen).
    exists (h1 :: built). split.
    + now rewrite <- app_assoc.
    + simpl. now rewrite Hlen.
Qed.

(** C2 (the code departs from it): a "failover" configuration with n nested
    configurations never yields the combinator over exactly the n built
    handlers, unless n is 0: the handler list is n nil entries followed by
    the built handlers, 2n entries in all. *)
Theorem MakeHandler_failover_keeps_nils (env : Env) (args : list value) (w : World)
    (h : handler) (err : option error) (w' : World) :
  MakeHandler env (VString "failover" :: args) w = (Done (Some h, err), w') ->
  exists built,
    h = FailoverH (replicate (length args) None ++ built)
    /\ length built = length args.
Proof.
  rewrite MakeHandler_named.
  change (switch_name env (MakeHandler_assert env) "failover" args)
    with (case_failover (MakeHandler_assert env) args).
  unfold case_failover. apply failover_loop_app.
Qed.

(** One nested configuration: the list is [nil; discard], and the first log
    call through the handler dereferences the nil entry. *)
Lemma MakeHandler_failover_keeps_nils_witness :
  MakeHandler online [VString "failover"; VConf [VString "discard"]] fresh
    = (Done (Some (FailoverH [None; Some DiscardH]), None), fresh) /\
  Log online (FailoverH [None; Some DiscardH]) (mkRecord LvlError "disk full" []) fresh
    = (Panicked nil_dereference, fresh) /\
  exists built,
    FailoverH [None; Some DiscardH] = FailoverH (replicate 1 None ++ built)
    /\ length built = 1%nat.
Proof.
  split; [reflexivity | split; [reflexivity |]].
  apply (MakeHandler_failover_keeps_nils online [VConf [VString "discard"]] fresh
           (FailoverH [None; Some DiscardH]) None fresh).
  reflexivity.
Defined.

(** ** Validity and the outcome of the builder *)

Section Agreement.

Variable env : Env.
Variable size_ok : Z -> bool.
Variable inner_ok : value -> bool.
Variable rec : value -> M result.

Local Abbreviation arg_valid := (arg_ok env size_ok inner_ok).
Local Abbreviation args_valid := (args_ok env size_ok inner_ok).

Hypothesis size_ok_capacity : forall n, size_ok n = capacity_ok env n.

Lemma agrees_eq (b b' : bool) res : agrees env b res -> b = b' -> agrees env b' res.
Proof. now intros H <-. Qed.

Lemma with_inner_agrees (a : value) (k : Handler -> M result) (okk : bool) (w : World) :
  (forall w, agrees env (inner_ok a) (rec a w)) ->
  (forall h w, agrees env okk (k h w)) ->
  agrees env (arg_valid TConfig a && okk) (with_inner rec a k w).
Proof.
  intros Ha Hk.
  destruct a; try exact eq_refl.
  unfold with_inner, bind. specialize (Ha w). unfold agrees in Ha.
  cbn [arg_ok].
  destruct (rec (VConf conf) w) as [[[[h |] [[| e] |]] | msg] w1]; cbn in Ha |- *;
    try (rewrite Ha; exact eq_refl); try contradiction; try assumption.
  rewrite Ha. apply Hk.
Qed.


Lemma with_formatter_agrees (a : value) (k : option Format -> M result)
    (okk : bool) (w : World) :
  (forall f w, agrees env okk (k f w)) ->
  agrees env (arg_valid TFormat a && okk) (with_formatter a k w).
Proof.
  intros Hk. unfold with_formatter.
  destruct (MakeFormatter_decides a) as [(f & H & Hok) | (H & Hok)];
    rewrite H, Hok; [apply Hk | exact eq_refl].
Qed.

Lemma lib_result_agrees (h : handler) (answer : list event -> option lib_error)
    (e : event) (w : World) :
  (reliable env -> forall tr, answer tr = None) ->
  agrees env true (bind (perform e answer) (fun err => ret (lib_result h err)) w).
Proof.
  intros Hrel. unfold bind, perform, ret, agrees. cbn.
  destruct (answer (events w)) as [err |] eqn:Ha; cbn; [| reflexivity].
  intros R. rewrite (Hrel R) in Ha. discriminate.
Qed.

Lemma FileHandler_agrees path f w : agrees env true (log15.FileHandler env path f w).
Proof. apply lib_result_agrees. intros R tr. apply R. Qed.

Lemma NetHandler_agrees n a f w : agrees env true (log15.NetHandler env n a f w).
Proof. apply lib_result_agrees. intros R tr. apply R. Qed.

Lemma SyslogHandler_agrees t f w : agrees env true (log15.SyslogHandler env t f w).
Proof. apply lib_result_agrees. intros R tr. apply R. Qed.

Lemma SyslogNetHandler_agrees n a t f w :
  agrees env true (log15.SyslogNetHandler env n a t f w).
Proof. apply lib_result_agrees. intros R tr. apply R. Qed.

Lemma BufferedHandler_agrees n h w :
  agrees env (size_ok n)
    (bind (log15.BufferedHandler env n h) (fun b => ret (b, None)) w).
Proof.
  rewrite size_ok_capacity.
  unfold log15.BufferedHandler, capacity_ok, bind.
  destruct (Z.ltb_spec n 0), (Z.ltb_spec (maxChanCap env) n); cbn;
    unfold agrees; cbn;
    destruct (Z.leb_spec 0 n), (Z.leb_spec n (maxChanCap env)); cbn; try lia;
    reflexivity.
Qed.

Lemma case_redis_agrees args w :
  agrees env (args_valid args [TString; TString]) (case_redis env args w).
Proof.
  destruct args as [| a0 [| a1 [| a2 rest]]]; try exact eq_refl;
    destruct a0; try exact eq_refl; destruct a1; try exact eq_refl.
  unfold case_redis, RedisHandler_Init, bind, perform, agrees. cbn.
  destruct (redis_Dial env (events w) "tcp" s) as [c [e |]] eqn:Hd; cbn;
    [| reflexivity].
  intros R. destruct R as (_ & _ & _ & _ & R). specialize (R (events w) "tcp" s).
  rewrite Hd in R. discriminate.
Qed.


Local Abbreviation agreeing := (args_agree env inner_ok rec).

Ltac use_args :=
  repeat match goal with
         | H : args_agree _ _ _ (_ :: _) |- _ => inversion_clear H
         | H : Forall _ (_ :: _) |- _ => inversion_clear H
         end.

Ltac wrong_shape :=
  try exact eq_refl;
  try (unfold agrees; cbn; rewrite ?andb_false_r; reflexivity).

Lemma multi_loop_agrees rest :
  agreeing rest ->
  forall i hs w, agrees env (forallb inner_ok rest) (multi_loop rec rest i hs w).
Proof.
  induction 1 as [| a rest Ha _ IH]; intros i hs w; [exact eq_refl |].
  cbn [multi_loop forallb]. unfold bind. specialize (Ha w). unfold agrees in Ha.
  destruct (rec a w) as [[[[h |] [[| e] |]] | msg] w1]; cbn in Ha |- *;
    try (rewrite Ha; exact eq_refl); try contradiction; try assumption.
  rewrite Ha. apply IH.
Qed.

Lemma failover_loop_agrees rest :
  agreeing rest ->
  forall hs w, agrees env (forallb inner_ok rest) (failover_loop rec rest hs w).
Proof.
  induction 1 as [| a rest Ha _ IH]; intros hs w; [exact eq_refl |].
  cbn [failover_loop forallb]. unfold bind. specialize (Ha w). unfold agrees in Ha.
  destruct (rec a w) as [[[[h |] [[| e] |]] | msg] w1]; cbn in Ha |- *;
    try (rewrite Ha; exact eq_refl); try contradiction; try assumption.
  rewrite Ha. apply IH.
Qed.

Lemma wrapper_agrees (wrap : Handler -> handler) a0 w :
  agreeing [a0] ->
  agrees env (args_valid [a0] [TConfig])
    (with_inner rec a0 (fun h => ret (Some (wrap h), None)) w).
Proof.
  intros IH. use_args.
  apply (with_inner_agrees a0 _ true); [assumption | intros; exact eq_refl].
Qed.

Lemma case_buffered_agrees args w :
  agreeing args ->
  agrees env (args_valid args [TSize; TConfig]) (case_buffered env rec args w).
Proof.
  intros IH.
  destruct args as [| a0 [| a1 [| a2 rest]]]; wrong_shape;
    destruct a0; wrong_shape.
  use_args. unfold case_buffered.
  eapply agrees_eq.
  - apply with_inner_agrees; [eassumption |].
    intros h w'. apply BufferedHandler_agrees.
  - cbn. rewrite andb_true_r. apply andb_comm.
Qed.

Lemma case_caller_file_agrees args w :
  agreeing args ->
  agrees env (args_valid args [TConfig]) (case_caller_file rec args w).
Proof.
  intros IH. destruct args as [| a0 [| a1 rest]]; wrong_shape.
  now apply (wrapper_agrees CallerFileH).
Qed.

Lemma case_caller_func_agrees args w :
  agreeing args ->
  agrees env (args_valid args [TConfig]) (case_caller_func rec args w).
Proof.
  intros IH. destruct args as [| a0 [| a1 rest]]; wrong_shape.
  now apply (wrapper_agrees CallerFuncH).
Qed.

Lemma case_lazy_agrees args w :
  agreeing args ->
  agrees env (args_valid args [TConfig]) (case_lazy rec args w).
Proof.
  intros IH. destruct args as [| a0 [| a1 rest]]; wrong_shape.
  now apply (wrapper_agrees LazyH).
Qed.

Lemma case_sync_agrees args w :
  agreeing args ->
  agrees env (args_valid args [TConfig]) (case_sync rec args w).
Proof.
  intros IH. destruct args as [| a0 [| a1 rest]]; wrong_shape.
  now apply (wrapper_agrees SyncH).
Qed.

Lemma case_caller_stack_agrees args w :
  agreeing args ->
  agrees env (args_valid args [TString; TConfig]) (case_caller_stack rec args w).
Proof.
  intros IH.
  destruct args as [| a0 [| a1 [| a2 rest]]]; wrong_shape;
    destruct a0; wrong_shape.
  use_args. now apply (wrapper_agrees (CallerStackH s)); constructor.
Qed.

Lemma case_discard_agrees args w :
  agrees env (args_valid args []) (case_discard args w).
Proof. destruct args; exact eq_refl. Qed.

Lemma case_file_agrees args w :
  agrees env (args_valid args [TString; TFormat]) (case_file env args w).
Proof.
  destruct args as [| a0 [| a1 [| a2 rest]]]; wrong_shape;
    destruct a0; wrong_shape.
  apply (with_formatter_agrees a1 _ true). intros f w'. apply FileHandler_agrees.
Qed.

Lemma case_syslog_agrees args w :
  agrees env (args_valid args [TString; TFormat]) (case_syslog env args w).
Proof.
  destruct args as [| a0 [| a1 [| a2 rest]]]; wrong_shape;
    destruct a0; wrong_shape.
  apply (with_formatter_agrees a1 _ true). intros f w'. apply SyslogHandler_agrees.
Qed.

Lemma case_net_agrees args w :
  agrees env (args_valid args [TString; TString; TFormat]) (case_net env args w).
Proof.
  destruct args as [| a0 [| a1 [| a2 [| a3 rest]]]]; wrong_shape;
    destruct a0; wrong_shape; destruct a1; wrong_shape.
  apply (with_formatter_agrees a2 _ true). intros f w'. apply NetHandler_agrees.
Qed.

Lemma case_syslog_net_agrees args w :
  agrees env (args_valid args [TString; TString; TString; TFormat])
    (case_syslog_net env args w).
Proof.
  destruct args as [| a0 [| a1 [| a2 [| a3 [| a4 rest]]]]]; wrong_shape;
    destruct a0; wrong_shape; destruct a1; wrong_shape; destruct a2; wrong_shape.
  apply (with_formatter_agrees a3 _ true). intros f w'.
  apply SyslogNetHandler_agrees.
Qed.

Lemma case_level_filter_agrees args w :
  agreeing args ->
  agrees env (args_valid args [TLevel; TConfig]) (case_level_filter env rec args w).
Proof.
  intros IH.
  destruct args as [| a0 [| a1 [| a2 rest]]]; wrong_shape;
    destruct a0; wrong_shape.
  use_args. unfold case_level_filter. cbn.
  destruct (LvlFromString env s) as [lvl [e |]]; cbn; wrong_shape.
  now apply (wrapper_agrees (LvlFilterH lvl)); constructor.
Qed.

Lemma case_match_filter_agrees args w :
  agreeing args ->
  agrees env (args_valid args [TString; TAny; TConfig])
    (case_match_filter rec args w).
Proof.
  intros IH.
  destruct args as [| a0 [| a1 [| a2 [| a3 rest]]]]; wrong_shape;
    destruct a0; wrong_shape.
  use_args.
  destruct a1; wrong_shape;
    match goal with
    | |- agrees _ _ (case_match_filter _ [_; ?val; _] _) =>
        now apply (wrapper_agrees (MatchFilterH s val)); constructor
    end.
Qed.

Lemma case_stream_agrees args w :
  agrees env (args_valid args [TStreamName; TFormat]) (case_stream args w).
Proof.
  destruct args as [| a0 [| a1 [| a2 rest]]]; wrong_shape;
    destruct a0; wrong_shape.
  unfold case_stream. cbn.
  destruct (String.eqb s "stdout"); cbn.
  - apply (with_formatter_agrees a1 _ true). intros; exact eq_refl.
  - destruct (String.eqb s "stderr"), (String.eqb s ""); cbn; wrong_shape;
      apply (with_formatter_agrees a1 _ true); intros; exact eq_refl.
Qed.

Lemma switch_name_agrees name args w :
  agreeing args ->
  agrees env (node_ok env size_ok inner_ok name args)
    (switch_name env rec name args w).
Proof.
  intros IH. unfold node_ok, switch_name, vocabulary. cbn [lookup_kind].
  destruct (String.eqb name "buffered"); [now apply case_buffered_agrees |].
  destruct (String.eqb name "caller_file"); [now apply case_caller_file_agrees |].
  destruct (String.eqb name "caller_func"); [now apply case_caller_func_agrees |].
  destruct (String.eqb name "caller_stack"); [now apply case_caller_stack_agrees |].
  destruct (String.eqb name "discard"); [apply case_discard_agrees |].
  destruct (String.eqb name "failover"); [now apply failover_loop_agrees |].
  destruct (String.eqb name "file"); [apply case_file_agrees |].
  destruct (String.eqb name "lazy"); [now apply case_lazy_agrees |].
  destruct (String.eqb name "level_filter"); [now apply case_level_filter_agrees |].
  destruct (String.eqb name "match_filter"); [now apply case_match_filter_agrees |].
  destruct (String.eqb name "multi"); [now apply multi_loop_agrees |].
  destruct (String.eqb name "net"); [apply case_net_agrees |].
  destruct (String.eqb name "stream"); [apply case_stream_agrees |].
  destruct (String.eqb name "sync"); [now apply case_sync_agrees |].
  destruct (String.eqb name "syslog"); [apply case_syslog_agrees |].
  destruct (String.eqb name "syslog_net"); [apply case_syslog_net_agrees |].
  destruct (String.eqb name "redis"); [apply case_redis_agrees |].
  exact eq_refl.
Qed.

End Agreement.

Lemma MakeHandler_assert_agrees (env : Env) (v : value) :
  forall w, agrees env (valid_value env v) (MakeHandler_assert env v w).
Proof.
  induction v as [| b | n | s | t | conf IH] using value_nested_ind; intros w;
    try exact eq_refl.
  destruct conf as [| c0 args]; [exact eq_refl |].
  destruct c0 as [| b | n | name | t | c]; try exact eq_refl.
  inversion_clear IH.
  apply (switch_name_agrees env (capacity_ok env) (valid_value env)
           (MakeHandler_assert env)); [reflexivity | assumption].
Qed.

Section Rejection.

Variable env : Env.
Variable rec : value -> M result.

Local Abbreviation shape_args := (args_ok env (fun _ => true) (fun _ => true)).

Lemma MakeFormatter_rejects (a : value) :
  arg_ok env (fun _ => true) (fun _ => true) TFormat a = false ->
  MakeFormatter a = (None, Some BadConf).
Proof.
  intros Hshape.
  destruct (MakeFormatter_decides a) as [(f & _ & Hok) | (H & _)]; [| exact H].
  rewrite Hok in Hshape. discriminate Hshape.
Qed.

Lemma with_formatter_rejects (a : value) (k : option Format -> M result) w :
  arg_ok env (fun _ => true) (fun _ => true) TFormat a = false ->
  with_formatter a k w = bad_conf w.
Proof.
  intros Hshape. unfold with_formatter.
  now rewrite (MakeFormatter_rejects a Hshape).
Qed.

Ltac typed a H :=
  destruct a; try reflexivity; cbn in H; try discriminate H.

Ltac formatted a H :=
  cbn in H; rewrite ?andb_true_r in H;
  now apply with_formatter_rejects.

Lemma case_buffered_rejects args w :
  shape_args args [TSize; TConfig] = false -> case_buffered env rec args w = bad_conf w.
Proof.
  intros H. destruct args as [| a0 [| a1 [| a2 rest]]]; try reflexivity;
    typed a0 H; typed a1 H.
Qed.

Lemma case_wrapper_rejects (k : Handler -> M result) args w :
  shape_args args [TConfig] = false ->
  match args with [a0] => with_inner rec a0 k | _ => bad_conf end w = bad_conf w.
Proof.
  intros H. destruct args as [| a0 [| a1 rest]]; try reflexivity; typed a0 H.
Qed.

Lemma case_caller_stack_rejects args w :
  shape_args args [TString; TConfig] = false ->
  case_caller_stack rec args w = bad_conf w.
Proof.
  intros H. destruct args as [| a0 [| a1 [| a2 rest]]]; try reflexivity;
    typed a0 H; typed a1 H.
Qed.

Lemma case_discard_rejects args w :
  shape_args args [] = false -> case_discard args w = bad_conf w.
Proof. intros H. destruct args; [discriminate H | reflexivity]. Qed.

Lemma case_file_rejects args w :
  shape_args args [TString; TFormat] = false -> case_file env args w = bad_conf w.
Proof.
  intros H. destruct args as [| a0 [| a1 [| a2 rest]]]; try reflexivity;
    typed a0 H. formatted a1 H.
Qed.

Lemma case_syslog_rejects args w :
  shape_args args [TString; TFormat] = false -> case_syslog env args w = bad_conf w.
Proof.
  intros H. destruct args as [| a0 [| a1 [| a2 rest]]]; try reflexivity;
    typed a0 H. formatted a1 H.
Qed.

Lemma case_net_rejects args w :
  shape_args args [TString; TString; TFormat] = false ->
  case_net env args w = bad_conf w.
Proof.
  intros H. destruct args as [| a0 [| a1 [| a2 [| a3 rest]]]]; try reflexivity;
    typed a0 H; typed a1 H. formatted a2 H.
Qed.

Lemma case_syslog_net_rejects args w :
  shape_args args [TString; TString; TString; TFormat] = false ->
  case_syslog_net env args w = bad_conf w.
Proof.
  intros H. destruct args as [| a0 [| a1 [| a2 [| a3 [| a4 rest]]]]];
    try reflexivity; typed a0 H; typed a1 H; typed a2 H. formatted a3 H.
Qed.

Lemma case_level_filter_rejects args w :
  shape_args args [TLevel; TConfig] = false ->
  case_level_filter env rec args w = bad_conf w.
Proof.
  intros H. destruct args as [| a0 [| a1 [| a2 rest]]]; try reflexivity;
    typed a0 H.
  unfold case_level_filter.
  destruct (LvlFromString env s) as [lvl [e |]]; [reflexivity |].
  typed a1 H.
Qed.

Lemma case_match_filter_rejects args w :
  shape_args args [TString; TAny; TConfig] = false ->
  case_match_filter rec args w = bad_conf w.
Proof.
  intros H. destruct args as [| a0 [| a1 [| a2 [| a3 rest]]]]; try reflexivity;
    typed a0 H; typed a1 H; typed a2 H.
Qed.

Lemma case_stream_rejects args w :
  shape_args args [TStreamName; TFormat] = false -> case_stream args w = bad_conf w.
Proof.
  intros H. destruct args as [| a0 [| a1 [| a2 rest]]]; try reflexivity;
    typed a0 H.
  unfold case_stream. unfold mem_string in H. cbn in H.
  destruct (String.eqb s "stdout"), (String.eqb s "stderr"), (String.eqb s "");
    cbn in H |- *; try reflexivity; formatted a1 H.
Qed.

Lemma case_redis_rejects args w :
  shape_args args [TString; TString] = false -> case_redis env args w = bad_conf w.
Proof.
  intros H. destruct args as [| a0 [| a1 [| a2 rest]]]; try reflexivity;
    typed a0 H; typed a1 H.
Qed.

Lemma forallb_true (args : list value) : forallb (fun _ => true) args = true.
Proof. induction args; [reflexivity | assumption]. Qed.

Lemma switch_name_rejects name args w :
  shape_ok env name args = false -> switch_name env rec name args w = bad_conf w.
Proof.
  unfold shape_ok, node_ok, switch_name, vocabulary. cbn [lookup_kind].
  destruct (String.eqb name "buffered"); [apply case_buffered_rejects |].
  destruct (String.eqb name "caller_file"); [apply case_wrapper_rejects |].
  destruct (String.eqb name "caller_func"); [apply case_wrapper_rejects |].
  destruct (String.eqb name "caller_stack"); [apply case_caller_stack_rejects |].
  destruct (String.eqb name "discard"); [apply case_discard_rejects |].
  destruct (String.eqb name "failover"); [now rewrite forallb_true |].
  destruct (String.eqb name "file"); [apply case_file_rejects |].
  destruct (String.eqb name "lazy"); [apply case_wrapper_rejects |].
  destruct (String.eqb name "level_filter"); [apply case_level_filter_rejects |].
  destruct (String.eqb name "match_filter"); [apply case_match_filter_rejects |].
  destruct (String.eqb name "multi"); [now rewrite forallb_true |].
  destruct (String.eqb name "net"); [apply case_net_rejects |].
  destruct (String.eqb name "stream"); [apply case_stream_rejects |].
  destruct (String.eqb name "sync"); [apply case_wrapper_rejects |].
  destruct (String.eqb name "syslog"); [apply case_syslog_rejects |].
  destruct (String.eqb name "syslog_net"); [apply case_syslog_net_rejects |].
  destruct (String.eqb name "redis"); [apply case_redis_rejects |].
  reflexivity.
Qed.

End Rejection.

(** ** Valid configurations: the build follows the acquisitions *)

Lemma attempt_app (env : Env) (l1 l2 : list event) :
  forall tr,
    attempt env tr (l1 ++ l2)
    = match attempt env tr l1 with
      | (d1, Some e) => (d1, Some e)
      | (d1, None) =>
          let '(d2, r) := attempt env (tr ++ d1) l2 in ((d1 ++ d2)%list, r)
      end.
Proof.
  induction l1 as [| e l1 IH]; intros tr; cbn [attempt app].
  - rewrite app_nil_r. now destruct (attempt env tr l2).
  - destruct (answer env tr e); [reflexivity |].
    rewrite IH. destruct (attempt env (tr ++ [e]) l1) as [d1 [e1 |]]; [reflexivity |].
    rewrite <- app_assoc. cbn [app].
    now destruct (attempt env (tr ++ e :: d1) l2).
Qed.

Lemma as_attempted_nothing (env : Env) (w : World) (h : handler) :
  as_attempted env w [] (Done (Some h, None), w).
Proof.
  unfold as_attempted. cbn. rewrite app_nil_r. split; [now destruct w | eauto].
Qed.

Lemma as_attempted_one (env : Env) (w : World) (e : event) (h : handler)
    (ask : list event -> option lib_error) :
  (forall tr, ask tr = answer env tr e) ->
  as_attempted env w [e]
    (bind (perform e ask) (fun err => ret (lib_result h err)) w).
Proof.
  intros Hask. unfold as_attempted, bind, perform, ret. cbn. rewrite <- Hask.
  destruct (ask (events w)); cbn; split; eauto.
Qed.

Section Attempted.

Variable env : Env.
Variable inner_ok : value -> bool.
Variable rec : value -> M result.
Variable res_rec : value -> list event.

Local Abbreviation arg_valid := (arg_ok env (capacity_ok env) inner_ok).
Local Abbreviation args_valid := (args_ok env (capacity_ok env) inner_ok).

(** What the induction provides for the arguments of a node. *)
Local Abbreviation attempted_args :=
  (Forall (fun a => inner_ok a = true ->
                    forall w, as_attempted env w (res_rec a) (rec a w))).

Lemma with_inner_attempted (hdata : HandlerConf) (k : Handler -> M result)
    (layer : Handler -> handler) (w : World) :
  (inner_ok (VConf hdata) = true ->
   forall w, as_attempted env w (res_rec (VConf hdata)) (rec (VConf hdata) w)) ->
  (forall h w, k h w = (Done (Some (layer h), None), w)) ->
  inner_ok (VConf hdata) = true ->
  as_attempted env w (res_rec (VConf hdata)) (with_inner rec (VConf hdata) k w).
Proof.
  intros IH Hk Ha. specialize (IH Ha w). unfold as_attempted in *.
  destruct (attempt env (events w) (res_rec (VConf hdata))) as [done [e |]];
    destruct IH as [Hw Hres]; unfold with_inner, bind;
    destruct (rec (VConf hdata) w) as [r w1]; cbn in Hw, Hres; subst.
  - split; reflexivity.
  - destruct Hres as [h ->]. rewrite Hk. split; cbn; eauto.
Qed.

Lemma with_formatter_attempted (a : value) (k : option Format -> M result)
    (reqs : list event) (w : World) :
  (forall f, as_attempted env w reqs (k (Some f) w)) ->
  arg_valid TFormat a = true ->
  as_attempted env w reqs (with_formatter a k w).
Proof.
  intros Hk Ha. unfold with_formatter.
  destruct (MakeFormatter_decides a) as [(f & -> & _) | (_ & Hno)]; [apply Hk |].
  rewrite Hno in Ha. discriminate Ha.
Qed.

Lemma BufferedHandler_accepts (n : Z) (h : Handler) (w : World) :
  capacity_ok env n = true ->
  bind (log15.BufferedHandler env n h) (fun b => ret (b, @None error)) w
  = (Done (Some (BufferedH n h), None), w).
Proof.
  unfold capacity_ok, log15.BufferedHandler, bind. intros Hn.
  apply andb_true_iff in Hn as [H0 Hmax].
  apply Z.leb_le in H0, Hmax.
  destruct (Z.ltb_spec n 0), (Z.ltb_spec (maxChanCap env) n); try lia. reflexivity.
Qed.

Lemma multi_loop_attempted (args : list value) :
  attempted_args args -> forallb inner_ok args = true ->
  forall i hs w,
    as_attempted env w (each_resources res_rec args) (multi_loop rec args i hs w).
Proof.
  induction 1 as [| a rest Ha _ IH]; intros Hok i hs w.
  - apply as_attempted_nothing.
  - cbn [forallb] in Hok. apply andb_true_iff in Hok as [Hoka Hrest].
    specialize (Ha Hoka w). specialize (IH Hrest).
    cbn [each_resources multi_loop]. unfold as_attempted in *.
    rewrite attempt_app. unfold bind.
    destruct (attempt env (events w) (res_rec a)) as [d1 [e |]];
      destruct Ha as [Hw Hres]; destruct (rec a w) as [r w1];
      cbn in Hw, Hres; subst.
    + split; reflexivity.
    + destruct Hres as [h ->].
      specialize (IH (S i) (<[i:=Some h]> hs) (mkWorld (events w ++ d1) (root_handler w))).
      cbn [events root_handler] in IH.
      destruct (attempt env (events w ++ d1) (each_resources res_rec rest))
        as [d2 r].
      now rewrite app_assoc.
Qed.

Lemma failover_loop_attempted (args : list value) :
  attempted_args args -> forallb inner_ok args = true ->
  forall hs w,
    as_attempted env w (each_resources res_rec args) (failover_loop rec args hs w).
Proof.
  induction 1 as [| a rest Ha _ IH]; intros Hok hs w.
  - apply as_attempted_nothing.
  - cbn [forallb] in Hok. apply andb_true_iff in Hok as [Hoka Hrest].
    specialize (Ha Hoka w). specialize (IH Hrest).
    cbn [each_resources failover_loop]. unfold as_attempted in *.
    rewrite attempt_app. unfold bind.
    destruct (attempt env (events w) (res_rec a)) as [d1 [e |]];
      destruct Ha as [Hw Hres]; destruct (rec a w) as [r w1];
      cbn in Hw, Hres; subst.
    + split; reflexivity.
    + destruct Hres as [h ->].
      specialize (IH (hs ++ [Some h])%list (mkWorld (events w ++ d1) (root_handler w))).
      cbn [events root_handler] in IH.
      destruct (attempt env (events w ++ d1) (each_resources res_rec rest))
        as [d2 r].
      now rewrite app_assoc.
Qed.

Ltac children :=
  repeat match goal with
         | H : Forall _ (_ :: _) |- _ => inversion_clear H
         end.

(** Split the validity of the arguments of a fixed-arity kind. *)
Ltac arguments H :=
  cbn [args_ok] in H;
  repeat match type of H with
         | (_ && _ = true) => apply andb_true_iff in H as [? H]
         end;
  try discriminate H.

Ltac typed_as a :=
  destruct a;
  try match goal with
      | Hx : arg_ok _ _ _ _ _ = true |- _ => cbn in Hx; discriminate Hx
      end.

Ltac one_layer layer :=
  match goal with
  | Hc : arg_ok _ _ _ TConfig (VConf ?c) = true |- as_attempted _ ?w _ _ =>
      apply (with_inner_attempted c _ layer w);
      [assumption | intros; reflexivity | exact Hc]
  end.

Lemma switch_name_attempted (name : string) (args : list value) (w : World) :
  attempted_args args ->
  node_ok env (capacity_ok env) inner_ok name args = true ->
  as_attempted env w (node_resources res_rec name args)
    (switch_name env rec name args w).
Proof.
  intros IH. unfold node_ok, vocabulary. cbn [lookup_kind].
  destruct (String.eqb_spec name "buffered") as [-> | _].
  { intros H. destruct args as [| a0 [| a1 [| a2 rest]]]; arguments H;
      typed_as a0; typed_as a1. children.
    match goal with
    | Hc : arg_ok _ _ _ TConfig (VConf ?c) = true |- _ =>
        apply (with_inner_attempted c _ (BufferedH n) w);
        [assumption | | exact Hc]
    end.
    intros h w'. now apply BufferedHandler_accepts. }
  destruct (String.eqb_spec name "caller_file") as [-> | _].
  { intros H. destruct args as [| a0 [| a1 rest]]; arguments H; typed_as a0.
    children. one_layer CallerFileH. }
  destruct (String.eqb_spec name "caller_func") as [-> | _].
  { intros H. destruct args as [| a0 [| a1 rest]]; arguments H; typed_as a0.
    children. one_layer CallerFuncH. }
  destruct (String.eqb_spec name "caller_stack") as [-> | _].
  { intros H. destruct args as [| a0 [| a1 [| a2 rest]]]; arguments H;
      typed_as a0; typed_as a1. children. one_layer (CallerStackH s). }
  destruct (String.eqb_spec name "discard") as [-> | _].
  { intros H. destruct args; [apply as_attempted_nothing | discriminate H]. }
  destruct (String.eqb_spec name "failover") as [-> | _].
  { intros H. now apply failover_loop_attempted. }
  destruct (String.eqb_spec name "file") as [-> | _].
  { intros H. destruct args as [| a0 [| a1 [| a2 rest]]]; arguments H; typed_as a0.
    apply with_formatter_attempted; [| assumption].
    intros f. now apply as_attempted_one. }
  destruct (String.eqb_spec name "lazy") as [-> | _].
  { intros H. destruct args as [| a0 [| a1 rest]]; arguments H; typed_as a0.
    children. one_layer LazyH. }
  destruct (String.eqb_spec name "level_filter") as [-> | _].
  { intros H. destruct args as [| a0 [| a1 [| a2 rest]]]; arguments H;
      typed_as a0; typed_as a1. children.
    match goal with Hl : arg_ok _ _ _ TLevel _ = true |- _ => cbn in Hl end.
    change (switch_name env rec "level_filter" [VString s; VConf conf])
      with (case_level_filter env rec [VString s; VConf conf]).
    unfold case_level_filter.
    destruct (LvlFromString env s) as [lvl [e |]]; [discriminate |].
    one_layer (LvlFilterH lvl). }
  destruct (String.eqb_spec name "match_filter") as [-> | _].
  { intros H. destruct args as [| a0 [| a1 [| a2 [| a3 rest]]]]; arguments H;
      typed_as a0; typed_as a2. children.
    typed_as a1;
      match goal with
      | |- as_attempted _ _ _ (switch_name _ _ _ [_; ?val; _] _) =>
          one_layer (MatchFilterH s val)
      end. }
  destruct (String.eqb_spec name "multi") as [-> | _].
  { intros H. now apply multi_loop_attempted. }
  destruct (String.eqb_spec name "net") as [-> | _].
  { intros H. destruct args as [| a0 [| a1 [| a2 [| a3 rest]]]]; arguments H;
      typed_as a0; typed_as a1.
    apply with_formatter_attempted; [| assumption].
    intros f. now apply as_attempted_one. }
  destruct (String.eqb_spec name "stream") as [-> | _].
  { intros H. destruct args as [| a0 [| a1 [| a2 rest]]]; arguments H;
      typed_as a0; typed_as a1.
    match goal with Hs : arg_ok _ _ _ TStreamName _ = true |- _ =>
      cbn in Hs; unfold mem_string in Hs; cbn in Hs end.
    match goal with
    | |- as_attempted _ _ _ (switch_name _ _ _ ?l _) =>
        change (switch_name env rec "stream" l) with (case_stream l)
    end.
    unfold case_stream.
    destruct (String.eqb s "stdout"), (String.eqb s "stderr"), (String.eqb s "");
      try discriminate; cbn;
      match goal with
      | |- context [with_formatter ?a ?k ?w0] =>
          apply (with_formatter_attempted a k [] w0); [| assumption]
      end;
      intros f; apply as_attempted_nothing. }
  destruct (String.eqb_spec name "sync") as [-> | _].
  { intros H. destruct args as [| a0 [| a1 rest]]; arguments H; typed_as a0.
    children. one_layer SyncH. }
  destruct (String.eqb_spec name "syslog") as [-> | _].
  { intros H. destruct args as [| a0 [| a1 [| a2 rest]]]; arguments H; typed_as a0.
    apply with_formatter_attempted; [| assumption].
    intros f. now apply as_attempted_one. }
  destruct (String.eqb_spec name "syslog_net") as [-> | _].
  { intros H. destruct args as [| a0 [| a1 [| a2 [| a3 [| a4 rest]]]]];
      arguments H; typed_as a0; typed_as a1; typed_as a2.
    apply with_formatter_attempted; [| assumption].
    intros f. now apply as_attempted_one. }
  destruct (String.eqb_spec name "redis") as [-> | _].
  { intros H. destruct args as [| a0 [| a1 [| a2 rest]]]; arguments H;
      typed_as a0; typed_as a1.
    change (switch_name env rec "redis" [VString s; VString s0])
      with (case_redis env [VString s; VString s0]).
    unfold as_attempted, case_redis, RedisHandler_Init, bind, perform, ret. cbn.
    destruct (redis_Dial env (events w) "tcp" s) as [c [e |]]; cbn; split; eauto. }
  discriminate.
Qed.

End Attempted.

Lemma MakeHandler_assert_attempted (env : Env) (v : value) :
  valid_value env v = true ->
  forall w, as_attempted env w (resources v) (MakeHandler_assert env v w).
Proof.
  induction v as [| b | n | s | t | conf IH] using value_nested_ind;
    try discriminate.
  destruct conf as [| c0 args]; [discriminate |].
  destruct c0 as [| b | n | name | t | c]; try discriminate.
  inversion_clear IH. intros Hv w.
  now apply (switch_name_attempted env (valid_value env)
               (MakeHandler_assert env) resources).
Qed.

(** ** Safe configurations: the build returns *)

Lemma returns_ret {A : Type} (a : A) : returns (ret a).
Proof. intros w. unfold ret. eauto. Qed.

Lemma returns_bind {A B : Type} (c : M A) (k : A -> M B) :
  returns c -> (forall a, returns (k a)) -> returns (bind c k).
Proof.
  intros Hc Hk w. unfold bind. destruct (Hc w) as (a & w1 & ->). apply Hk.
Qed.

Lemma returns_perform {A : Type} (e : event) (answer : list event -> A) :
  returns (perform e answer).
Proof. intros w. unfold perform. eauto. Qed.

Section Returning.

Variable env : Env.
Variable rec : value -> M result.
Variable safe_rec : value -> bool.

Hypothesis rec_agrees : forall a w, agrees env (valid_value env a) (rec a w).

(** What the induction provides for the arguments of a node. *)
Local Abbreviation returning_args :=
  (Forall (fun a => safe_rec a = true -> returns (rec a))).

Ltac by_cases :=
  repeat (match goal with
          | |- returns (match ?x with _ => _ end) => destruct x
          end; cbv beta iota).

Ltac settle :=
  by_cases;
  repeat first
    [ apply returns_ret
    | apply returns_perform
    | apply returns_bind; [| intros ?]
    | progress by_cases ].

Lemma with_formatter_returns (a : value) (k : option Format -> M result) :
  (forall f, returns (k f)) -> returns (with_formatter a k).
Proof. intros Hk. unfold with_formatter. settle. apply Hk. Qed.

Lemma with_inner_returns (a : value) (k : Handler -> M result) :
  ((exists c, a = VConf c) -> returns (rec a)) ->
  (forall h w, valid_value env a = true -> exists r w', k h w = (Done r, w')) ->
  returns (with_inner rec a k).
Proof.
  intros Ha Hk w. unfold with_inner, bad_conf.
  destruct a; try (unfold ret; eauto; fail).
  unfold bind. destruct (Ha (ex_intro _ conf eq_refl) w) as ([h err] & w1 & E).
  rewrite E. destruct err as [e |]; [unfold ret; eauto |].
  apply Hk. pose proof (rec_agrees (VConf conf) w) as Hag.
  unfold agrees in Hag. rewrite E in Hag. cbn in Hag.
  destruct h; [exact Hag | contradiction].
Qed.

Lemma multi_loop_returns (args : list value) :
  returning_args args -> safe_each safe_rec (valid_value env) args = true ->
  forall i hs, returns (multi_loop rec args i hs).
Proof.
  induction 1 as [| a rest Ha _ IH]; intros Hs i hs w.
  - cbn. unfold ret. eauto.
  - cbn [safe_each] in Hs. apply andb_true_iff in Hs as [Hsa Hrest].
    cbn [multi_loop]. unfold bind.
    destruct (Ha Hsa w) as ([h err] & w1 & E). rewrite E.
    destruct err as [e |]; [unfold ret; eauto |].
    pose proof (rec_agrees a w) as Hag. unfold agrees in Hag. rewrite E in Hag.
    cbn in Hag. destruct h; [| contradiction]. rewrite Hag in Hrest.
    now apply IH.
Qed.

Lemma failover_loop_returns (args : list value) :
  returning_args args -> safe_each safe_rec (valid_value env) args = true ->
  forall hs, returns (failover_loop rec args hs).
Proof.
  induction 1 as [| a rest Ha _ IH]; intros Hs hs w.
  - cbn. unfold ret. eauto.
  - cbn [safe_each] in Hs. apply andb_true_iff in Hs as [Hsa Hrest].
    cbn [failover_loop]. unfold bind.
    destruct (Ha Hsa w) as ([h err] & w1 & E). rewrite E.
    destruct err as [e |]; [unfold ret; eauto |].
    pose proof (rec_agrees a w) as Hag. unfold agrees in Hag. rewrite E in Hag.
    cbn in Hag. destruct h; [| contradiction]. rewrite Hag in Hrest.
    now apply IH.
Qed.

Ltac children :=
  repeat match goal with
         | H : Forall _ (_ :: _) |- _ => inversion_clear H
         end.

Ltac arity H := cbn in H; rewrite ?andb_false_r in H; try discriminate H.

Ltac shaped H x := destruct x; cbn in H; try discriminate H.

(** A kind with one nested configuration and nothing else that can panic. *)
Ltac nested_returns Hsafe :=
  apply with_inner_returns;
  [ intros _;
    cbn in Hsafe; rewrite ?andb_true_r in Hsafe;
    repeat match type of Hsafe with
           | (_ && _ = true) => apply andb_true_iff in Hsafe as [Hsafe ?]
           end;
    auto
  | intros; unfold ret; eauto ].

Lemma switch_name_returns (name : string) (args : list value) :
  returning_args args ->
  safe_node env safe_rec (valid_value env) name args = true ->
  returns (switch_name env rec name args).
Proof.
  intros IH. unfold safe_node.
  destruct (node_ok env (fun _ => true) (fun _ => true) name args) eqn:Hshape.
  2: { intros _ w. rewrite (switch_name_rejects env rec name args w Hshape).
       unfold bad_conf, ret. eauto. }
  revert Hshape. unfold node_ok, vocabulary. cbn [lookup_kind].
  destruct (String.eqb_spec name "buffered") as [-> | _].
  { intros Hshape Hsafe.
    destruct args as [| a0 [| a1 [| a2 rest]]]; arity Hshape;
      shaped Hshape a0; shaped Hshape a1.
    children. apply andb_true_iff in Hsafe as [Hin Hsize].
    cbn in Hin. rewrite andb_true_r in Hin.
    apply with_inner_returns; [auto |].
    intros h w Hv. cbn [args_ok arg_ok] in Hsize. rewrite Hv in Hsize.
    cbn [andb implb] in Hsize. rewrite andb_true_r in Hsize.
    rewrite (BufferedHandler_accepts env n h w Hsize). eauto. }
  destruct (String.eqb_spec name "caller_file") as [-> | _].
  { intros Hshape Hsafe. destruct args as [| a0 [| a1 rest]]; arity Hshape.
    children. apply andb_true_iff in Hsafe as [Hsafe _]. nested_returns Hsafe. }
  destruct (String.eqb_spec name "caller_func") as [-> | _].
  { intros Hshape Hsafe. destruct args as [| a0 [| a1 rest]]; arity Hshape.
    children. apply andb_true_iff in Hsafe as [Hsafe _]. nested_returns Hsafe. }
  destruct (String.eqb_spec name "caller_stack") as [-> | _].
  { intros Hshape Hsafe.
    destruct args as [| a0 [| a1 [| a2 rest]]]; arity Hshape;
      shaped Hshape a0.
    children. apply andb_true_iff in Hsafe as [Hsafe _]. nested_returns Hsafe. }
  destruct (String.eqb_spec name "discard") as [-> | _].
  { intros _ _. unfold switch_name. cbn. unfold case_discard, bad_conf. settle. }
  destruct (String.eqb_spec name "failover") as [-> | _].
  { intros _ Hsafe. now apply failover_loop_returns. }
  destruct (String.eqb_spec name "file") as [-> | _].
  { intros _ _. unfold switch_name. cbn. unfold case_file, bad_conf. settle.
    apply with_formatter_returns. intros f. unfold log15.FileHandler. settle. }
  destruct (String.eqb_spec name "lazy") as [-> | _].
  { intros Hshape Hsafe. destruct args as [| a0 [| a1 rest]]; arity Hshape.
    children. apply andb_true_iff in Hsafe as [Hsafe _]. nested_returns Hsafe. }
  destruct (String.eqb_spec name "level_filter") as [-> | _].
  { intros Hshape Hsafe.
    destruct args as [| a0 [| a1 [| a2 rest]]]; arity Hshape;
      shaped Hshape a0.
    children. apply andb_true_iff in Hsafe as [Hsafe _].
    change (switch_name env rec "level_filter" [VString s; a1])
      with (case_level_filter env rec [VString s; a1]).
    unfold case_level_filter.
    destruct (LvlFromString env s) as [lvl [e |]]; [apply returns_ret |].
    nested_returns Hsafe. }
  destruct (String.eqb_spec name "match_filter") as [-> | _].
  { intros Hshape Hsafe.
    destruct args as [| a0 [| a1 [| a2 [| a3 rest]]]]; arity Hshape;
      shaped Hshape a0.
    children. apply andb_true_iff in Hsafe as [Hsafe _].
    destruct a1; try apply returns_ret; nested_returns Hsafe. }
  destruct (String.eqb_spec name "multi") as [-> | _].
  { intros _ Hsafe. now apply multi_loop_returns. }
  destruct (String.eqb_spec name "net") as [-> | _].
  { intros _ _. unfold switch_name. cbn. unfold case_net, bad_conf. settle.
    apply with_formatter_returns. intros f. unfold log15.NetHandler. settle. }
  destruct (String.eqb_spec name "stream") as [-> | _].
  { intros _ _. unfold switch_name. cbn. unfold case_stream, bad_conf. settle;
      apply with_formatter_returns; intros f; settle. }
  destruct (String.eqb_spec name "sync") as [-> | _].
  { intros Hshape Hsafe. destruct args as [| a0 [| a1 rest]]; arity Hshape.
    children. apply andb_true_iff in Hsafe as [Hsafe _]. nested_returns Hsafe. }
  destruct (String.eqb_spec name "syslog") as [-> | _].
  { intros _ _. unfold switch_name. cbn. unfold case_syslog, bad_conf. settle.
    apply with_formatter_returns. intros f. unfold log15.SyslogHandler. settle. }
  destruct (String.eqb_spec name "syslog_net") as [-> | _].
  { intros _ _. unfold switch_name. cbn. unfold case_syslog_net, bad_conf. settle.
    apply with_formatter_returns. intros f. unfold log15.SyslogNetHandler. settle. }
  destruct (String.eqb_spec name "redis") as [-> | _].
  { intros _ _. unfold switch_name. cbn.
    unfold case_redis, bad_conf, RedisHandler_Init. settle. }
  discriminate.
Qed.

End Returning.

Lemma MakeHandler_assert_returns (env : Env) (v : value) :
  safe_value env v = true -> returns (MakeHandler_assert env v).
Proof.
  induction v as [| b | n | s | t | conf IH] using value_nested_ind;
    try discriminate.
  destruct conf as [| c0 args]; [intros _; apply returns_ret |].
  destruct c0 as [| b | n | name | t | c]; try discriminate.
  inversion_clear IH. intros Hs.
  apply (switch_name_returns env (MakeHandler_assert env) (safe_value env));
    [apply MakeHandler_assert_agrees | assumption | exact Hs].
Qed.

Lemma MakeHandler_agrees (env : Env) (conf : HandlerConf) (w : World) :
  agrees env (valid env conf) (MakeHandler env conf w).
Proof. apply MakeHandler_assert_agrees. Qed.

(** C1 (as amended): a valid configuration never panics and never gets
    [BadConf]: its build attempts the acquisitions of its sinks in
    configuration order up to the first that fails; when none fails it
    returns a handler and no error, and otherwise no handler and the error
    of that acquisition, as it is.  A configuration that is not valid never
    yields a handler; it returns an error, without a panic, whenever the
    build reaches no unchecked assertion that fails and no buffer size the
    runtime refuses, and that error is [BadConf] when no acquisition can
    fail.  A configuration that is empty, or whose node under a string head
    has an unknown kind, a wrong argument count or a wrongly typed or
    wrongly named argument, yields [BadConf] and no handler, before
    anything outside the package is touched. *)
Theorem MakeHandler_validity (env : Env) (conf : HandlerConf) (w : World) :
  (valid env conf = true ->
     as_attempted env w (resources (VConf conf)) (MakeHandler env conf w)) /\
  (valid env conf = true -> reliable env ->
     exists h w', MakeHandler env conf w = (Done (Some h, None), w')) /\
  (valid env conf = false ->
     forall h err w', MakeHandler env conf w = (Done (h, err), w') ->
       h = None /\ err <> None) /\
  (valid env conf = false -> safe env conf = true ->
     exists e w', MakeHandler env conf w = (Done (None, Some e), w')
                  /\ (reliable env -> e = BadConf)) /\
  (conf = [] \/ (exists name args,
                   conf = VString name :: args /\ shape_ok env name args = false) ->
     MakeHandler env conf w = (Done (None, Some BadConf), w)).
Proof.
  pose proof (MakeHandler_agrees env conf w) as H. unfold agrees in H.
  split; [| split; [| split; [| split]]].
  - intros Hv. now apply MakeHandler_assert_attempted.
  - intros Hv R. rewrite Hv in H.
    destruct (MakeHandler env conf w) as [[[[h |] [[| e] |]] | msg] w1];
      cbn in H; try discriminate; try contradiction; eauto.
  - intros Hv h err w' E. rewrite Hv, E in H.
    destruct h as [h |], err as [[| e] |];
      cbn in H; try discriminate; try contradiction; split; congruence.
  - intros Hv Hs.
    destruct (MakeHandler_assert_returns env (VConf conf) Hs w) as ([h err] & w' & E).
    change (MakeHandler_assert env (VConf conf) w) with (MakeHandler env conf w) in E.
    rewrite Hv, E in H. cbn in H.
    destruct h as [h |], err as [[| e] |];
      try discriminate; try contradiction.
    + exists BadConf, w'. now split.
    + exists (Foreign e), w'. split; [exact E | intros R; contradiction].
  - intros [-> | (name & args & -> & Hshape)]; [reflexivity |].
    rewrite MakeHandler_named. now apply switch_name_rejects.
Qed.

Lemma online_reliable : reliable online.
Proof. repeat split. Qed.

Lemma MakeHandler_validity_witness :
  (let built :=
     MakeHandler offline
       (conf_multi [conf_stream "stdout" "json"; conf_file "/tmp/a.log" "json";
                    conf_file "/tmp/b.log" "json"]) fresh in
   snd built = after fresh (EvOpenFile "/tmp/a.log") /\
   fst built = Done (None, Some (Foreign (LibError "resource unavailable")))) /\
  (exists h w',
     MakeHandler online
       (conf_level_filter "warn"
          (conf_multi [conf_file "/var/log/app.json" "json";
                       [VString "buffered"; VInt 8; VConf (conf_stream "" "logfmt")]]))
       fresh = (Done (Some h, None), w')) /\
  ((None : Handler) = None /\ Some BadConf <> None) /\
  (exists e w',
     MakeHandler online
       [VString "sync"; VConf [VString "caller_file"; VConf [VString "sink"]]] fresh
     = (Done (None, Some e), w') /\ (reliable online -> e = BadConf)) /\
  MakeHandler online [VString "sink"; VString "a"] fresh
    = (Done (None, Some BadConf), fresh).
Proof.
  split; [| split; [| split; [| split]]].
  - exact (proj1 (MakeHandler_validity offline
             (conf_multi [conf_stream "stdout" "json"; conf_file "/tmp/a.log" "json";
                          conf_file "/tmp/b.log" "json"]) fresh) eq_refl).
  - apply (proj1 (proj2 (MakeHandler_validity online _ fresh)));
      [reflexivity | exact online_reliable].
  - apply (proj1 (proj2 (proj2 (MakeHandler_validity online
              [VString "multi"; VConf conf_discard; VConf [VString "file"; VString "/x"]]
              fresh))) eq_refl None (Some BadConf) fresh).
    reflexivity.
  - apply (proj1 (proj2 (proj2 (proj2 (MakeHandler_validity online
              [VString "sync"; VConf [VString "caller_file"; VConf [VString "sink"]]]
              fresh)))));
      reflexivity.
  - apply (proj2 (proj2 (proj2 (proj2 (MakeHandler_validity online
              [VString "sink"; VString "a"] fresh))))).
    right. exists "sink", [VString "a"]. split; reflexivity.
Defined.

(** C1 (as stated) fails both ways.  Valid configurations that do not build:
    a "file" whose file cannot be opened returns the error of the library,
    a "buffered" with a negative size, an int as the data model asks,
    panics, and a "match_filter" whose value, of any type, is nil gets
    [BadConf].  Invalid configurations that do not return an error: one
    headed by a non-string, or holding a non-configuration under "multi" or
    "failover", panics. *)
Lemma MakeHandler_validity_counterexample :
  (valid offline (conf_file "/var/log/app.json" "json") = true /\
   MakeHandler offline (conf_file "/var/log/app.json" "json") fresh
   = (Done (None, Some (Foreign (LibError "resource unavailable"))),
      after fresh (EvOpenFile "/var/log/app.json"))) /\
  (node_ok online (fun _ => true) (valid_value online) "buffered"
     [VInt (-1); VConf conf_discard] = true /\
   MakeHandler online [VString "buffered"; VInt (-1); VConf conf_discard] fresh
   = (Panicked "makechan: size out of range", fresh)) /\
  (MakeHandler online
     [VString "match_filter"; VString "component"; VNil; VConf conf_discard] fresh
   = (Done (None, Some BadConf), fresh)) /\
  (valid online [VInt 3] = false /\
   MakeHandler online [VInt 3] fresh
   = (Panicked "interface conversion: interface {} is not string", fresh)) /\
  (valid online [VString "multi"; VInt 3] = false /\
   MakeHandler online [VString "multi"; VInt 3] fresh
   = (Panicked "interface conversion: interface {} is not log.HandlerConf", fresh)) /\
  (valid online [VString "failover"; VString "discard"] = false /\
   MakeHandler online [VString "failover"; VString "discard"] fresh
   = (Panicked "interface conversion: interface {} is not log.HandlerConf", fresh)).
Proof. repeat split. Qed.

(** ** The kind "multi", for comparison with "failover" *)

Lemma multi_loop_length (rec : value -> M result) (rest : list value) :
  forall (i : nat) (hs : list Handler) (w : World) (h : handler)
         (err : option error) (w' : World),
    multi_loop rec rest i hs w = (Done (Some h, err), w') ->
    exists built, h = MultiH built /\ length built = length hs.
Proof.
  induction rest as [| a rest IH]; intros i hs w h err w'; simpl.
  - unfold ret. intros [= <- _ _]. now exists hs.
  - unfold bind. destruct (rec a w) as [[[h1 [e1 |]] | msg] w1]; try discriminate.
    intros Hloop. apply IH in Hloop as (built & -> & Hlen).
    exists built. split; [reflexivity |]. now rewrite Hlen, length_insert.
Qed.

(** The handler list of "multi" has one entry per nested configuration. *)
Lemma MakeHandler_multi_length (env : Env) (args : list value) (w : World)
    (h : handler) (err : option error) (w' : World) :
  MakeHandler env (VString "multi" :: args) w = (Done (Some h, err), w') ->
  exists built, h = MultiH built /\ length built = length args.
Proof.
  rewrite MakeHandler_named.
  change (switch_name env (MakeHandler_assert env) "multi" args)
    with (case_multi (MakeHandler_assert env) args).
  unfold case_multi. intros Hloop.
  apply multi_loop_length in Hloop as (built & -> & Hlen).
  exists built. split; [reflexivity |]. now rewrite Hlen, length_replicate.
Qed.

(** ** The fixed recipes *)

(** The recipe [noop] builds the discard sink and cannot fail. *)
Lemma MakeNoopHandler_discards (env : Env) (w : World) :
  MakeNoopHandler env w = (Done (Some DiscardH, None), w).
Proof. reflexivity. Qed.

(** At start-up the root logger gets the terminal-format sink on standard
    error. *)
Lemma init_installs_stderr_terminal (env : Env) (w : World) :
  init env w = (Done tt, mkWorld (events w) (Some (StreamH Stderr (Some TerminalFormat)))).
Proof. reflexivity. Qed.

(** * Further properties *)

(** ** What building a handler does to the world *)

Lemma acquired_refl (w : World) : acquired w w.
Proof. split; [reflexivity |]. exists []. now rewrite app_nil_r. Qed.

Lemma acquired_trans (w1 w2 w3 : World) :
  acquired w1 w2 -> acquired w2 w3 -> acquired w1 w3.
Proof.
  intros [Hr1 (e1 & He1 & Ha1)] [Hr2 (e2 & He2 & Ha2)]. split; [congruence |].
  exists (e1 ++ e2)%list. split.
  - now rewrite He2, He1, <- app_assoc.
  - rewrite forallb_app. now rewrite Ha1, Ha2.
Qed.

Lemma acquires_only_ret {A : Type} (a : A) : acquires_only (ret a).
Proof. intros w. apply acquired_refl. Qed.

Lemma acquires_only_panic {A : Type} (msg : string) : acquires_only (@panic A msg).
Proof. intros w. apply acquired_refl. Qed.

Lemma acquires_only_bind {A B : Type} (c : M A) (k : A -> M B) :
  acquires_only c -> (forall a, acquires_only (k a)) -> acquires_only (bind c k).
Proof.
  intros Hc Hk w. unfold bind. specialize (Hc w).
  destruct (c w) as [[a | msg] w1]; cbn in Hc |- *; [| exact Hc].
  eapply acquired_trans; [exact Hc | apply Hk].
Qed.

Lemma acquires_only_perform {A : Type} (e : event) (answer : list event -> A) :
  acquisition e = true -> acquires_only (perform e answer).
Proof.
  intros He w. split; [reflexivity |]. exists [e]. cbn. now rewrite He.
Qed.

Section Footprint.

Variable env : Env.
Variable rec : value -> M result.

Local Abbreviation all_acquire_only := (Forall (fun a => acquires_only (rec a))).

Ltac by_cases :=
  repeat (match goal with
          | |- acquires_only (match ?x with _ => _ end) => destruct x
          end; cbv beta iota).

Ltac use_children :=
  repeat match goal with
         | H : Forall _ (_ :: _) |- _ => inversion_clear H
         end.

Ltac settle :=
  by_cases; use_children;
  repeat first
    [ apply acquires_only_ret
    | apply acquires_only_panic
    | assumption
    | apply acquires_only_perform; reflexivity
    | apply acquires_only_bind; [| intros ?]
    | progress by_cases ].

Lemma with_inner_acquires_only (a : value) (k : Handler -> M result) :
  acquires_only (rec a) -> (forall h, acquires_only (k h)) ->
  acquires_only (with_inner rec a k).
Proof.
  intros Ha Hk. unfold with_inner, bad_conf. settle. apply Hk.
Qed.

Lemma with_formatter_acquires_only (a : value) (k : option Format -> M result) :
  (forall f, acquires_only (k f)) -> acquires_only (with_formatter a k).
Proof.
  intros Hk. unfold with_formatter, bad_conf. settle. apply Hk.
Qed.

Lemma multi_loop_acquires_only (rest : list value) :
  all_acquire_only rest ->
  forall i hs, acquires_only (multi_loop rec rest i hs).
Proof.
  induction 1 as [| a rest Ha _ IH]; intros i hs; cbn [multi_loop]; settle.
  apply IH.
Qed.

Lemma failover_loop_acquires_only (rest : list value) :
  all_acquire_only rest ->
  forall hs, acquires_only (failover_loop rec rest hs).
Proof.
  induction 1 as [| a rest Ha _ IH]; intros hs; cbn [failover_loop]; settle.
  apply IH.
Qed.

Ltac inner :=
  apply with_inner_acquires_only; [assumption | intros ?; settle].

Ltac fmt := apply with_formatter_acquires_only; intros ?.

Lemma switch_name_acquires_only (name : string) (args : list value) :
  all_acquire_only args -> acquires_only (switch_name env rec name args).
Proof.
  intros IH. unfold switch_name.
  destruct (String.eqb name "buffered").
  { unfold case_buffered, bad_conf, log15.BufferedHandler. settle; inner. }
  destruct (String.eqb name "caller_file").
  { unfold case_caller_file, bad_conf. settle; inner. }
  destruct (String.eqb name "caller_func").
  { unfold case_caller_func, bad_conf. settle; inner. }
  destruct (String.eqb name "caller_stack").
  { unfold case_caller_stack, bad_conf. settle; inner. }
  destruct (String.eqb name "discard").
  { unfold case_discard, bad_conf. settle. }
  destruct (String.eqb name "failover").
  { now apply failover_loop_acquires_only. }
  destruct (String.eqb name "file").
  { unfold case_file, bad_conf, log15.FileHandler. settle; fmt; settle. }
  destruct (String.eqb name "lazy").
  { unfold case_lazy, bad_conf. settle; inner. }
  destruct (String.eqb name "level_filter").
  { unfold case_level_filter, bad_conf. settle; inner. }
  destruct (String.eqb name "match_filter").
  { unfold case_match_filter, bad_conf. settle; inner. }
  destruct (String.eqb name "multi").
  { now apply multi_loop_acquires_only. }
  destruct (String.eqb name "net").
  { unfold case_net, bad_conf, log15.NetHandler. settle; fmt; settle. }
  destruct (String.eqb name "stream").
  { unfold case_stream, bad_conf. settle; fmt; settle. }
  destruct (String.eqb name "sync").
  { unfold case_sync, bad_conf. settle; inner. }
  destruct (String.eqb name "syslog").
  { unfold case_syslog, bad_conf, log15.SyslogHandler. settle; fmt; settle. }
  destruct (String.eqb name "syslog_net").
  { unfold case_syslog_net, bad_conf, log15.SyslogNetHandler. settle; fmt; settle. }
  destruct (String.eqb name "redis").
  { unfold case_redis, bad_conf, RedisHandler_Init. settle. }
  apply acquires_only_ret.
Qed.

End Footprint.

Lemma MakeHandler_assert_acquires_only (env : Env) (v : value) :
  acquires_only (MakeHandler_assert env v).
Proof.
  induction v as [| b | n | s | t | conf IH] using value_nested_ind;
    try apply acquires_only_panic.
  destruct conf as [| c0 args]; [apply acquires_only_ret |].
  inversion_clear IH.
  destruct c0; try apply acquires_only_panic.
  now apply switch_name_acquires_only.
Qed.

(** X1: whatever the configuration and the outcome, [MakeHandler] leaves the
    handler of the root logger as it is and only extends the history, by
    resource acquisitions: it writes no record and sends no redis command. *)
Theorem MakeHandler_only_acquires (env : Env) (conf : HandlerConf) (w : World) :
  let w' := snd (MakeHandler env conf w) in
  root_handler w' = root_handler w /\
  exists evs : list event,
    events w' = (events w ++ evs)%list /\
    Forall (fun e => forall c cmd args wr b,
                       e <> EvRedisDo c cmd args /\ e <> EvWrite wr b) evs.
Proof.
  destruct (MakeHandler_assert_acquires_only env (VConf conf) w) as [Hr (evs & He & Ha)].
  split; [exact Hr |]. exists evs. split; [exact He |].
  apply Forall_forall. intros e Hin c cmd args wr b.
  rewrite forallb_forall in Ha. specialize (Ha e).
  rewrite <- list_elem_of_In in Ha. specialize (Ha Hin).
  split; intros ->; discriminate Ha.
Qed.

(** ** The shape of what the builder returns *)

(** X2: when [MakeHandler] returns, exactly one of the handler and the error
    is nil, for every configuration, environment and world. *)
Theorem MakeHandler_handler_xor_error (env : Env) (conf : HandlerConf) (w : World)
    (h : Handler) (err : option error) (w' : World) :
  MakeHandler env conf w = (Done (h, err), w') ->
  (h <> None /\ err = None) \/ (h = None /\ err <> None).
Proof.
  intros E. pose proof (MakeHandler_agrees env conf w) as H.
  unfold agrees in H. rewrite E in H. cbn in H.
  destruct h as [h |], err as [[| e] |]; try contradiction;
    [left | right | right]; split; congruence.
Qed.

Lemma MakeHandler_handler_xor_error_witness :
  ((Some DiscardH : Handler) <> None /\ (None : option error) = None)
  \/ ((Some DiscardH : Handler) = None /\ (None : option error) <> None).
Proof.
  apply (MakeHandler_handler_xor_error online [VString "discard"] fresh
           (Some DiscardH) None fresh).
  reflexivity.
Defined.

(** ** The kinds around one nested configuration *)

Lemma with_inner_wrapped (rec : value -> M result) (hdata : HandlerConf)
    (layer : Handler -> handler) (w : World) :
  with_inner rec (VConf hdata) (fun h => ret (Some (layer h), None)) w
  = wrapped layer (rec (VConf hdata) w).
Proof.
  unfold with_inner, bind, wrapped.
  now destruct (rec (VConf hdata) w) as [[[h [e |]] | msg] w1].
Qed.

(** X3: each of the eight kinds that wrap one nested configuration, given
    arguments of its own that it accepts, returns what the nested
    configuration returns: its error or its panic untouched, with the world
    the nested build left, or else its handler under one layer of the kind. *)
Theorem MakeHandler_wrapper (env : Env) (head : list value)
    (layer : Handler -> handler) (hdata : HandlerConf) (w : World) :
  wrapper_of env head = Some layer ->
  MakeHandler env (head ++ [VConf hdata])%list w = wrapped layer (MakeHandler env hdata w).
Proof.
  intros Hw. rewrite <- (MakeHandler_assert_conf env hdata).
  destruct head as [| [| | | name | |] [| a0 [| a1 [| a2 rest]]]]; try discriminate Hw;
    cbn [app]; rewrite MakeHandler_named.
  - cbn in Hw.
    destruct (String.eqb_spec name "caller_file") as [-> |];
      [injection Hw as <-; apply with_inner_wrapped |].
    destruct (String.eqb_spec name "caller_func") as [-> |];
      [injection Hw as <-; apply with_inner_wrapped |].
    destruct (String.eqb_spec name "lazy") as [-> |];
      [injection Hw as <-; apply with_inner_wrapped |].
    destruct (String.eqb_spec name "sync") as [-> |];
      [injection Hw as <-; apply with_inner_wrapped | discriminate Hw].
  - destruct a0 as [| | n | s | |]; try discriminate Hw; cbn in Hw.
    + destruct (String.eqb_spec name "buffered") as [-> |]; [| discriminate Hw].
      cbn in Hw. unfold capacity_ok in Hw.
      destruct (Z.leb_spec 0 n), (Z.leb_spec n (maxChanCap env));
        try discriminate Hw. injection Hw as <-.
      change (switch_name env (MakeHandler_assert env) "buffered"
                [VInt n; VConf hdata])
        with (case_buffered env (MakeHandler_assert env) [VInt n; VConf hdata]).
      unfold case_buffered, with_inner, bind, wrapped, log15.BufferedHandler.
      destruct (MakeHandler_assert env (VConf hdata) w) as [[[h [e |]] | msg] w1];
        try reflexivity.
      destruct (Z.ltb_spec n 0), (Z.ltb_spec (maxChanCap env) n); try lia.
      reflexivity.
    + destruct (String.eqb_spec name "caller_stack") as [-> |];
        [injection Hw as <-; apply with_inner_wrapped |].
      destruct (String.eqb_spec name "level_filter") as [-> |]; [| discriminate Hw].
      change (switch_name env (MakeHandler_assert env) "level_filter"
                [VString s; VConf hdata])
        with (case_level_filter env (MakeHandler_assert env) [VString s; VConf hdata]).
      unfold case_level_filter.
      destruct (LvlFromString env s) as [lvl [e |]]; [discriminate Hw |].
      injection Hw as <-. apply with_inner_wrapped.
  - destruct a0 as [| | | key | |]; try discriminate Hw. cbn in Hw.
    destruct (String.eqb_spec name "match_filter") as [-> |]; [| discriminate Hw].
    destruct a1; try discriminate Hw; injection Hw as <-; apply with_inner_wrapped.
  - destruct a0; discriminate Hw.
Qed.

Lemma MakeHandler_wrapper_witness :
  MakeHandler offline
    [VString "level_filter"; VString "info";
     VConf [VString "net"; VString "tcp"; VString "10.0.0.9:514"; VString "logfmt"]]
    fresh
  = (Done (None, Some (Foreign (LibError "resource unavailable"))),
     after fresh (EvNetDial "tcp" "10.0.0.9:514")) /\
  MakeHandler online
    [VString "match_filter"; VString "component"; VString "db";
     VConf [VString "discard"]] fresh
  = (Done (Some (MatchFilterH "component" (VString "db") (Some DiscardH)), None), fresh).
Proof.
  split.
  - apply (MakeHandler_wrapper offline [VString "level_filter"; VString "info"]
             (LvlFilterH LvlInfo)
             [VString "net"; VString "tcp"; VString "10.0.0.9:514"; VString "logfmt"]
             fresh).
    reflexivity.
  - apply (MakeHandler_wrapper online
             [VString "match_filter"; VString "component"; VString "db"]
             (MatchFilterH "component" (VString "db")) [VString "discard"] fresh).
    reflexivity.
Defined.

(** ** The variadic kinds, child by child *)

Lemma multi_loop_built (rec : value -> M result) (rest : list value)
    (w : World) (hs : list Handler) (w' : World) :
  built_in_order rec rest w hs w' ->
  forall done : list Handler,
    multi_loop rec rest (length done) (done ++ replicate (length rest) None) w
    = (Done (Some (MultiH (done ++ hs)), None), w').
Proof.
  induction 1 as [w | a args w w1 w' h hs Ha _ IH]; intros done.
  - reflexivity.
  - cbn [multi_loop length replicate]. unfold bind. rewrite Ha.
    rewrite insert_app_r_alt by lia. rewrite Nat.sub_diag. cbn [list_insert].
    specialize (IH (done ++ [h])%list).
    rewrite length_app, Nat.add_1_r, <- !app_assoc in IH. exact IH.
Qed.

(** X4: when the nested configurations of a "multi" build one after the
    other without an error, the combinator is built over exactly their
    handlers, in configuration order, and the world is the one the last of
    them left. *)
Theorem MakeHandler_multi_in_order (env : Env) (args : list value) (w : World)
    (hs : list Handler) (w' : World) :
  built_in_order (MakeHandler_assert env) args w hs w' ->
  MakeHandler env (VString "multi" :: args) w = (Done (Some (MultiH hs), None), w').
Proof.
  intros Hbuilt. rewrite MakeHandler_named.
  change (switch_name env (MakeHandler_assert env) "multi" args)
    with (multi_loop (MakeHandler_assert env) args (length (@nil Handler))
            ([] ++ replicate (length args) None)).
  now rewrite (multi_loop_built _ _ _ _ _ Hbuilt).
Qed.

Lemma MakeHandler_multi_in_order_witness :
  MakeHandler online
    [VString "multi"; VConf (conf_file "/tmp/a.log" "logfmt"); VConf conf_discard;
     VConf (conf_stream "stdout" "json")] fresh
  = (Done (Some (MultiH [Some (FileH "/tmp/a.log" (Some LogfmtFormat));
                         Some DiscardH;
                         Some (StreamH Stdout (Some JsonFormat))]), None),
     after fresh (EvOpenFile "/tmp/a.log")).
Proof.
  apply MakeHandler_multi_in_order.
  repeat (eapply built_next; [reflexivity |]). apply built_none.
Defined.

Lemma multi_loop_stops (rec : value -> M result) (pre : list value)
    (w : World) (hs : list Handler) (w1 : World) :
  built_in_order rec pre w hs w1 ->
  forall bad post res w2 i acc,
    rec bad w1 = (res, w2) -> failed res ->
    multi_loop rec (pre ++ bad :: post) i acc w = (without_handler res, w2).
Proof.
  induction 1 as [w | a args w w1 w' h hs Ha _ IH]; intros bad post res w2 i acc Hbad Hf.
  - cbn [app multi_loop]. unfold bind. rewrite Hbad.
    destruct res as [[h [e |]] | msg]; [reflexivity | contradiction | reflexivity].
  - cbn [app multi_loop]. unfold bind. rewrite Ha. now apply IH.
Qed.

Lemma failover_loop_stops (rec : value -> M result) (pre : list value)
    (w : World) (hs : list Handler) (w1 : World) :
  built_in_order rec pre w hs w1 ->
  forall bad post res w2 acc,
    rec bad w1 = (res, w2) -> failed res ->
    failover_loop rec (pre ++ bad :: post) acc w = (without_handler res, w2).
Proof.
  induction 1 as [w | a args w w1 w' h hs Ha _ IH]; intros bad post res w2 acc Hbad Hf.
  - cbn [app failover_loop]. unfold bind. rewrite Hbad.
    destruct res as [[h [e |]] | msg]; [reflexivity | contradiction | reflexivity].
  - cbn [app failover_loop]. unfold bind. rewrite Ha. now apply IH.
Qed.

(** X5: "multi" and "failover" stop at the first element that does not
    build: its error, or its panic, is the outcome, no handler is returned,
    the elements after it are never looked at, and what the elements before
    it acquired stays acquired. *)
Theorem MakeHandler_variadic_stops (env : Env) (name : string)
    (pre : list value) (bad : value) (post : list value)
    (w w1 w2 : World) (hs : list Handler) (res : outcome result) :
  name = "multi" \/ name = "failover" ->
  built_in_order (MakeHandler_assert env) pre w hs w1 ->
  MakeHandler_assert env bad w1 = (res, w2) ->
  failed res ->
  MakeHandler env (VString name :: pre ++ bad :: post)%list w
  = (without_handler res, w2).
Proof.
  intros [-> | ->] Hpre Hbad Hf; rewrite MakeHandler_named.
  - change (switch_name env (MakeHandler_assert env) "multi" (pre ++ bad :: post))
      with (case_multi (MakeHandler_assert env) (pre ++ bad :: post)).
    unfold case_multi. eapply multi_loop_stops; eassumption.
  - change (switch_name env (MakeHandler_assert env) "failover" (pre ++ bad :: post))
      with (case_failover (MakeHandler_assert env) (pre ++ bad :: post)).
    unfold case_failover. eapply failover_loop_stops; eassumption.
Qed.

Lemma MakeHandler_variadic_stops_witness :
  MakeHandler online
    [VString "multi"; VConf (conf_file "/tmp/a.log" "json");
     VConf [VString "file"; VString "/tmp/b.log"];
     VInt 7;
     VConf [VString "redis"; VString "10.0.0.1:6379"; VString "logs"]] fresh
  = (Done (None, Some BadConf), after fresh (EvOpenFile "/tmp/a.log")).
Proof.
  apply (MakeHandler_variadic_stops online "multi"
           [VConf (conf_file "/tmp/a.log" "json")]
           (VConf [VString "file"; VString "/tmp/b.log"])
           [VInt 7; VConf [VString "redis"; VString "10.0.0.1:6379"; VString "logs"]]
           fresh (after fresh (EvOpenFile "/tmp/a.log"))
           (after fresh (EvOpenFile "/tmp/a.log"))
           [Some (FileH "/tmp/a.log" (Some JsonFormat))]
           (Done (None, Some BadConf))).
  - left; reflexivity.
  - eapply built_next; [reflexivity | apply built_none].
  - reflexivity.
  - exact I.
Defined.

(** ** The sinks that acquire a resource *)

(** X6: "file", "net", "syslog" and "syslog_net" check the format selector
    before they touch anything: a selector [MakeFormatter] rejects gives
    [BadConf] in an unchanged world.  With an accepted selector the resource
    is acquired exactly once, and the outcome is the sink when that succeeds
    and the library's error, as it is, when it fails. *)
Theorem MakeHandler_sinks (env : Env) (w : World) (format : value)
    (path network address tag : string) :
  let file := [VString "file"; VString path; format] in
  let net := [VString "net"; VString network; VString address; format] in
  let syslog := [VString "syslog"; VString tag; format] in
  let syslog_net :=
    [VString "syslog_net"; VString network; VString address; VString tag; format] in
  (MakeFormatter format = (None, Some BadConf) ->
     Forall (fun conf => MakeHandler env conf w = (Done (None, Some BadConf), w))
       [file; net; syslog; syslog_net]) /\
  (forall f, MakeFormatter format = (Some f, None) ->
     MakeHandler env file w
     = (Done (lib_result (FileH path (Some f)) (os_OpenFile env (events w) path)),
        after w (EvOpenFile path)) /\
     MakeHandler env net w
     = (Done (lib_result (NetH network address (Some f))
                (net_Dial env (events w) network address)),
        after w (EvNetDial network address)) /\
     MakeHandler env syslog w
     = (Done (lib_result (SyslogH tag (Some f)) (syslog_New env (events w) tag)),
        after w (EvSyslogNew tag)) /\
     MakeHandler env syslog_net w
     = (Done (lib_result (SyslogNetH network address tag (Some f))
                (syslog_Dial env (events w) network address tag)),
        after w (EvSyslogDial network address tag))).
Proof.
  cbv zeta. split.
  - intros Hf. repeat constructor; rewrite MakeHandler_named;
      cbv [switch_name String.eqb Ascii.eqb Bool.eqb
             case_file case_net case_syslog case_syslog_net with_formatter];
      now rewrite Hf.
  - intros f Hf. repeat split; rewrite MakeHandler_named;
      cbv [switch_name String.eqb Ascii.eqb Bool.eqb
             case_file case_net case_syslog case_syslog_net with_formatter];
      now rewrite Hf.
Qed.

Lemma MakeHandler_sinks_witness :
  MakeHandler offline [VString "file"; VString "/var/log/x"; VString "yaml"] fresh
    = (Done (None, Some BadConf), fresh) /\
  MakeHandler offline [VString "file"; VString "/var/log/x"; VString "json"] fresh
    = (Done (None, Some (Foreign (LibError "resource unavailable"))),
       after fresh (EvOpenFile "/var/log/x")).
Proof.
  split.
  - pose proof (proj1 (MakeHandler_sinks offline fresh (VString "yaml")
                         "/var/log/x" "" "" "") eq_refl) as H.
    inversion_clear H. assumption.
  - apply (proj2 (MakeHandler_sinks offline fresh (VString "json")
                    "/var/log/x" "" "" "") JsonFormat eq_refl).
Defined.

(** ** The recipe [basic], evaluated *)

Lemma MakeHandler_level_filter_case (env : Env) (args : list value) :
  MakeHandler env (VString "level_filter" :: args)
  = case_level_filter env (MakeHandler_assert env) args.
Proof. reflexivity. Qed.

(** X7: with a level string the level parser rejects, [MakeBasicHandler]
    returns [BadConf] and no handler, whatever the path and the quiet flag,
    and the log file has not been opened. *)
Theorem MakeBasicHandler_bad_level (env : Env) (fpath lvl : string) (quiet : bool)
    (w : World) (l : Lvl) (e : lib_error) :
  LvlFromString env lvl = (l, Some e) ->
  MakeBasicHandler env fpath lvl quiet w = (Done (None, Some BadConf), w).
Proof.
  intros Hlvl. unfold MakeBasicHandler, bind, terminal_IsTerminal, ret.
  destruct quiet; cbv beta iota delta [negb];
    [| destruct (IsTerminal env (events w) Stdout_Fd)];
    rewrite MakeHandler_level_filter_case; unfold case_level_filter;
    now rewrite Hlvl.
Qed.

Lemma MakeBasicHandler_bad_level_witness :
  MakeBasicHandler online "/var/log/app.json" "verbose" false fresh
  = (Done (None, Some BadConf), fresh).
Proof.
  apply (MakeBasicHandler_bad_level online "/var/log/app.json" "verbose" false fresh
           LvlDebug (LibError "Unknown level")).
  reflexivity.
Defined.

(** X8: with a level string that maps to the severity [l],
    [MakeBasicHandler] never panics and never returns [BadConf].  With an
    empty path it touches nothing and returns the level filter at [l] around
    the caller-file annotation around the fan-out to discard and the stream
    branch.  With a non-empty path it opens that file once, and returns the
    same tree with the JSON file sink in the place of discard, or the error
    of the open. *)
Theorem MakeBasicHandler_builds (env : Env) (fpath lvl : string) (quiet : bool)
    (w : World) (l : Lvl) :
  LvlFromString env lvl = (l, None) ->
  let stream := basic_stream quiet (IsTerminal env (events w) Stdout_Fd) in
  (fpath = "" ->
     MakeBasicHandler env fpath lvl quiet w
     = (Done (Some (basic_handler l DiscardH stream), None), w)) /\
  (fpath <> "" ->
     MakeBasicHandler env fpath lvl quiet w
     = (Done (lib_result (basic_handler l (FileH fpath (Some JsonFormat)) stream)
                (os_OpenFile env (events w) fpath)),
        after w (EvOpenFile fpath))).
Proof.
  intros Hlvl. cbv zeta.
  unfold MakeBasicHandler, bind, terminal_IsTerminal, ret, basic_stream.
  split.
  - intros ->.
    destruct quiet; cbv beta iota delta [negb];
      [| destruct (IsTerminal env (events w) Stdout_Fd)];
      rewrite MakeHandler_level_filter_case; unfold case_level_filter;
      rewrite Hlvl; reflexivity.
  - intros Hpath. apply String.eqb_neq in Hpath. rewrite Hpath.
    destruct quiet; cbv beta iota delta [negb];
      [| destruct (IsTerminal env (events w) Stdout_Fd)];
      rewrite MakeHandler_level_filter_case; unfold case_level_filter;
      rewrite Hlvl; cbn; unfold bind, perform, after; cbn;
      destruct (os_OpenFile env (events w) fpath); reflexivity.
Qed.

Lemma MakeBasicHandler_builds_witness :
  MakeBasicHandler (sample_env true true) "" "warn" false fresh
    = (Done (Some (basic_handler LvlWarn DiscardH
                     (StreamH Stderr (Some TerminalFormat))), None), fresh) /\
  MakeBasicHandler offline "/var/log/app.json" "warn" true fresh
    = (Done (None, Some (Foreign (LibError "resource unavailable"))),
       after fresh (EvOpenFile "/var/log/app.json")).
Proof.
  split.
  - apply (proj1 (MakeBasicHandler_builds (sample_env true true) "" "warn" false
                    fresh LvlWarn eq_refl)).
    reflexivity.
  - apply (proj2 (MakeBasicHandler_builds offline "/var/log/app.json" "warn" true
                    fresh LvlWarn eq_refl)).
    discriminate.
Defined.

(** Whatever the path and the quiet flag, a handler of the recipe is the
    level filter around the annotation around a fan-out of two. *)
Lemma MakeBasicHandler_tree (env : Env) (fpath lvl : string) (quiet : bool)
    (w w1 : World) (l : Lvl) (h : Handler) :
  LvlFromString env lvl = (l, None) ->
  MakeBasicHandler env fpath lvl quiet w = (Done (h, None), w1) ->
  exists file stream, h = Some (basic_handler l file stream).
Proof.
  intros Hlvl. unfold MakeBasicHandler, bind, terminal_IsTerminal, ret.
  destruct (String.eqb fpath ""); destruct quiet; cbv beta iota delta [negb];
    try destruct (IsTerminal env (events w) Stdout_Fd);
    rewrite MakeHandler_level_filter_case; unfold case_level_filter;
    rewrite Hlvl; cbn; unfold bind, perform; cbn;
    try destruct (os_OpenFile env (events w) fpath); cbn;
    intros E; try discriminate E; injection E as <- _;
    unfold basic_handler; eauto.
Qed.

(** X9: once the handler of [MakeBasicHandler] is installed with a level
    other than debug, [Printf] does nothing at all: no file write, no stream
    write, the world stays as it is. *)
Theorem MakeBasicHandler_drops_Printf (env : Env) (fpath lvl : string)
    (quiet : bool) (w w1 : World) (l : Lvl) (h : Handler)
    (format : string) (v : list value) :
  LvlFromString env lvl = (l, None) ->
  l <> LvlDebug ->
  MakeBasicHandler env fpath lvl quiet w = (Done (h, None), w1) ->
  bind (SetHandler h) (fun _ => Printf env format v) w1
  = (Done tt, mkWorld (events w1) h).
Proof.
  intros Hlvl Hl Hbuilt.
  destruct (MakeBasicHandler_tree env fpath lvl quiet w w1 l h Hlvl Hbuilt)
    as (file & stream & ->).
  unfold bind, SetHandler, Printf, Debug, root_write. cbn.
  unfold lvl_passes. cbn.
  destruct l; try reflexivity. contradiction.
Qed.

Lemma MakeBasicHandler_drops_Printf_witness :
  bind (SetHandler (Some (basic_handler LvlInfo DiscardH
                            (StreamH Stderr (Some JsonFormat)))))
       (fun _ => Printf online "cache miss: %s" [VString "k"]) fresh
  = (Done tt, mkWorld [] (Some (basic_handler LvlInfo DiscardH
                                  (StreamH Stderr (Some JsonFormat))))).
Proof.
  apply (MakeBasicHandler_drops_Printf online "" "info" false fresh fresh LvlInfo
           (Some (basic_handler LvlInfo DiscardH (StreamH Stderr (Some JsonFormat))))
           "cache miss: %s" [VString "k"]);
    [reflexivity | discriminate | reflexivity].
Defined.

(** ** [log.go] *)

(** X10: [init] cannot fail and touches nothing outside the package: in
    every environment it installs the terminal-format sink on standard
    error, never a nil handler.  A [Printf] after it writes exactly one
    record, the debug record of the formatted message in terminal format, to
    standard error, and returns normally whatever the write answers. *)
Theorem init_then_Printf (env : Env) (w : World) (format : string) (v : list value) :
  let installed := mkWorld (events w) (Some (StreamH Stderr (Some TerminalFormat))) in
  let line :=
    Format_Format env TerminalFormat (mkRecord LvlDebug (Sprintf env format v) []) in
  init env w = (Done tt, installed) /\
  bind (init env) (fun _ => Printf env format v) w
  = (Done tt, after installed (EvWrite (WStream Stderr) line)).
Proof. split; reflexivity. Qed.

(** X11: [Panicf] never returns normally.  It first logs the formatted
    message at severity error through the root handler; when that call
    returns, with or without an error, the panic carries the formatted
    message and the world is the one the handler left. *)
Theorem Panicf_panics (env : Env) (format : string) (v : list value) (w : World) :
  let s := Sprintf env format v in
  (exists msg w', Panicf env format v w = (Panicked msg, w')) /\
  (forall res w',
     Handler_Log env (root_handler w) (mkRecord LvlError s []) w = (Done res, w') ->
     Panicf env format v w = (Panicked s, w')).
Proof.
  cbv zeta. unfold Panicf, Error, root_write, bind, panic. split.
  - destruct (Handler_Log env (root_handler w)
                (mkRecord LvlError (Sprintf env format v) []) w) as [[res | msg] w'];
      eauto.
  - intros res w' ->. reflexivity.
Qed.

Lemma Panicf_panics_witness :
  let w := mkWorld [] (Some (StreamH Stderr (Some LogfmtFormat))) in
  Panicf offline "lost %s" [VString "db"] w
  = (Panicked "lost %s", after w (EvWrite (WStream Stderr) (list_byte_of_string "lost %s"))).
Proof.
  cbv zeta.
  apply (proj2 (Panicf_panics offline "lost %s" [VString "db"] _)
           (Some (Foreign (LibError "resource unavailable")))).
  reflexivity.
Defined.

(** X12: [LogToLog15.Write] forwards the bytes as the message of one record
    of severity info, and when the handler returns it reports the full
    length of the input and no error, even if the handler returned one. *)
Theorem LogToLog15_Write_never_fails (env : Env) (b : list Byte.byte) (w : World)
    (res : option error) (w' : World) :
  let r := mkRecord LvlInfo (string_of_list_byte b) [] in
  Handler_Log env (root_handler w) r w = (Done res, w') ->
  list_byte_of_string (r_Msg r) = b /\
  LogToLog15_Write env b w = (Done (Z.of_nat (length b), None), w').
Proof.
  cbv zeta. intros Hlog. split.
  - apply list_byte_of_string_of_list_byte.
  - unfold LogToLog15_Write, Info, root_write, bind. now rewrite Hlog.
Qed.

Lemma LogToLog15_Write_never_fails_witness :
  let w := mkWorld [] (Some (FileH "/var/log/std.log" (Some JsonFormat))) in
  LogToLog15_Write offline [Byte.x6f; Byte.x6b] w
  = (Done (2, None), after w (EvWrite (WFile "/var/log/std.log") [Byte.x6f; Byte.x6b])).
Proof.
  cbv zeta.
  apply (LogToLog15_Write_never_fails offline [Byte.x6f; Byte.x6b] _
           (Some (Foreign (LibError "resource unavailable")))).
  reflexivity.
Defined.

(** X13: [SetHandler] changes nothing but the handler of the root logger,
    and the last call wins; what was installed before has no influence on a
    later [Printf], and after [SetHandler(nil)] every [Printf] panics,
    without any external action. *)
Theorem SetHandler_replaces (env : Env) (h1 h2 previous : Handler) (evs : list event)
    (format : string) (v : list value) :
  let w := mkWorld evs previous in
  bind (SetHandler h1) (fun _ => SetHandler h2) w = (Done tt, mkWorld evs h2) /\
  bind (SetHandler h2) (fun _ => Printf env format v) w
  = Printf env format v (mkWorld evs h2) /\
  bind (SetHandler None) (fun _ => Printf env format v) w
  = (Panicked nil_dereference, mkWorld evs None).
Proof. repeat split. Qed.

(** X14: [MakeNoopHandler] succeeds in every environment without any
    external action, and logging a record through its handler does nothing
    and returns no error. *)
Theorem MakeNoopHandler_silent (env : Env) (w w2 : World) (r : Record) :
  exists h,
    MakeNoopHandler env w = (Done (Some h, None), w) /\
    Log env h r w2 = (Done None, w2).
Proof. exists DiscardH. split; reflexivity. Qed.

(** ** The formatter builder, once more *)

(** X15: no two format selectors give the same formatter: from the
    formatter [MakeFormatter] returned, the selector can be told. *)
Theorem MakeFormatter_injective (a b : FormatConf) (f : Format) :
  MakeFormatter a = (Some f, None) ->
  MakeFormatter b = (Some f, None) ->
  a = b.
Proof.
  assert (Hsel : forall x g, MakeFormatter x = (Some g, None) ->
            (g = JsonFormat /\ x = VString "json")
            \/ (g = JsonFormatEx true true /\ x = VString "json_pretty")
            \/ (g = LogfmtFormat /\ x = VString "logfmt")
            \/ (g = TerminalFormat /\ x = VString "terminal")).
  { intros x g. destruct x as [| | | s | |]; try discriminate. unfold MakeFormatter.
    destruct (String.eqb_spec s "json") as [-> |]; [intros [= <-]; auto |].
    destruct (String.eqb_spec s "json_pretty") as [-> |]; [intros [= <-]; auto |].
    destruct (String.eqb_spec s "logfmt") as [-> |]; [intros [= <-]; auto 6 |].
    destruct (String.eqb_spec s "terminal") as [-> |]; [intros [= <-]; auto 6 |].
    discriminate. }
  intros Ha Hb.
  destruct (Hsel a f Ha) as [[-> ->] | [[-> ->] | [[-> ->] | [-> ->]]]];
    destruct (Hsel b _ Hb) as [[E ->] | [[E ->] | [[E ->] | [E ->]]]];
    try discriminate E; reflexivity.
Qed.

Lemma MakeFormatter_injective_witness : VString "logfmt" = VString "logfmt".
Proof.
  apply (MakeFormatter_injective (VString "logfmt") (VString "logfmt") LogfmtFormat);
    reflexivity.
Defined.

(** ** The redis sink outside [MakeHandler] *)

(** X16: a [RedisHandler] on which [Init] has not run, or whose dial gave no
    connection, panics on [Log] before any command is sent; and the failed
    [Init] has still installed the JSON formatter. *)
Theorem RedisHandler_Log_needs_Init (env : Env) (p : RedisHandler) (r : Record)
    (w w2 : World) :
  (formatter p = None \/ conn p = None ->
     RedisHandler_Log env p r w2 = (Panicked nil_dereference, w2)) /\
  (forall p' err w',
     RedisHandler_Init env p w = (Done (p', err), w') ->
     conn p' = None ->
     formatter p' = Some JsonFormat /\
     RedisHandler_Log env p' r w2 = (Panicked nil_dereference, w2)).
Proof.
  split.
  - unfold RedisHandler_Log. intros [-> | ->]; [reflexivity |].
    now destruct (formatter p).
  - unfold RedisHandler_Init, bind, perform, ret. cbn.
    destruct (redis_Dial env (events w) "tcp" (Loc p)) as [c e].
    intros p' err w' [= <- _ _]. cbn. intros ->. split; reflexivity.
Qed.

Lemma RedisHandler_Log_needs_Init_witness :
  RedisHandler_Log online (mkRedisHandler "h:6379" "logs" None None)
    (mkRecord LvlInfo "up" []) fresh
  = (Panicked nil_dereference, fresh).
Proof.
  apply (proj1 (RedisHandler_Log_needs_Init online
                  (mkRedisHandler "h:6379" "logs" None None)
                  (mkRecord LvlInfo "up" []) fresh fresh)).
  left; reflexivity.
Defined.
